(** * endlessh-journal-analyzer: a shallow embedding of [analyze.py]

    The development follows the source file top to bottom: the event parser
    ([ConnectionEvent.from_journal]), the [Connection] class, the
    correlation loop and the report of [main], and
    [human_readable_seconds].

    Python values are modelled as the code has them: [str] as [string],
    [int] as [Z], [float] as the kernel's binary64 [float], [None]-or-value
    as [option], the insertion-ordered [dict] as an association list with
    unique keys, exceptions and [print] through a small output-and-error
    monad.  The functions of Python's standard library that the program
    calls ([ipaddress.ip_address], [int], [float], [datetime.strptime],
    [str]/[repr] of addresses, the geolocation request) are the fields of
    the class [PyLib]; every general theorem holds for every instance.

    The command line and the reading of the journal are outside:
    [main] is given the arguments and the messages that
    [yield_journal_messages] yields, in their order. *)

From Stdlib Require Import ZArith List String Ascii Bool Lia.
From Stdlib Require Import Permutation Sorted DecimalString DecimalPos DecimalZ.
From Stdlib Require Import PrimFloat SpecFloat FloatOps.
Import ListNotations.

Open Scope string_scope.
Open Scope Z_scope.

(* ------------------------------------------------------------------ *)
(** ** Exceptions, output and the monad of the program                  *)
(* ------------------------------------------------------------------ *)

(** The exceptions the modelled code can raise. *)
Inductive exn : Type :=
| ValueError (msg : string)
| IndexError
| KeyError
| TypeError
| OverflowError
| URLError.

(** One call of [print]: to standard output, or with [file=sys.stderr]. *)
Inductive Out : Type :=
| Stdout (line : string)
| Stderr (line : string).

(** A computation prints lines and then either raises or returns. *)
Definition M (A : Type) : Type := (list Out * (exn + A))%type.

Definition ret {A} (a : A) : M A := ([], inr a).
Definition raise {A} (e : exn) : M A := ([], inl e).
Definition print (s : string) : M unit := ([Stdout s], inr tt).
Definition eprint (s : string) : M unit := ([Stderr s], inr tt).

Definition bind {A B} (m : M A) (f : A -> M B) : M B :=
  match m with
  | (o, inl e) => (o, inl e)
  | (o, inr a) => let (o', r) := f a in ((o ++ o')%list, r)
  end.

(** A pure step that may raise. *)
Definition lift {A} (r : exn + A) : M A := ([], r).

Declare Scope py_scope.
Delimit Scope py_scope with py.
Notation "x <- m ;; k" := (bind m (fun x => k))
  (at level 61, m at next level, right associativity) : py_scope.
Notation "m ;;; k" := (bind m (fun _ => k))
  (at level 61, right associativity) : py_scope.
Open Scope py_scope.

Definition output {A} (m : M A) : list Out := fst m.
Definition outcome {A} (m : M A) : exn + A := snd m.

(* ------------------------------------------------------------------ *)
(** ** Strings and lists as Python uses them                            *)
(* ------------------------------------------------------------------ *)

(** [s.split(sep)] for a one-character separator: every occurrence of
    [sep] ends a field, so the result has one more field than [s] has
    separators and is never empty. *)
Fixpoint str_split (sep : ascii) (s : string) : list string :=
  match s with
  | EmptyString => [EmptyString]
  | String c s' =>
      if Ascii.eqb c sep then EmptyString :: str_split sep s'
      else match str_split sep s' with
           | [] => [String c EmptyString]
           | w :: ws => String c w :: ws
           end
  end.

(** [s.startswith(p)]. *)
Definition startswith (p s : string) : bool := String.prefix p s.

(** [l[i]] for [i >= 0]: [IndexError] out of range. *)
Definition getitem {A} (l : list A) (i : nat) : exn + A :=
  match nth_error l i with
  | Some a => inr a
  | None => inl IndexError
  end.

(** [l[-1]]. *)
Fixpoint last_item {A} (l : list A) : exn + A :=
  match l with
  | [] => inl IndexError
  | [a] => inr a
  | _ :: l' => last_item l'
  end.

(** [str(n)] for an [int]. *)
Definition str_int (n : Z) : string := NilZero.string_of_int (Z.to_int n).

Definition space : ascii := " "%char.
Definition equals_sign : ascii := "="%char.
Definition tab : ascii := ascii_of_nat 9.

(* ------------------------------------------------------------------ *)
(** ** Numbers: [int(float)] and [sum]                                   *)
(* ------------------------------------------------------------------ *)

(** The exact value of a finite float is [num / den]: mantissa times a
    power of two, the sign on the numerator. *)
Definition float_ratio (s : bool) (m : positive) (e : Z) : Z * Z :=
  let n := Z.pos m * 2 ^ Z.max e 0 in
  ((if s then - n else n), 2 ^ Z.max (- e) 0).

(** [int(x)] for a float [x]: the integral part, rounding toward zero;
    [ValueError] on NaN and [OverflowError] on an infinity. *)
Definition int_of_float (x : float) : exn + Z :=
  match Prim2SF x with
  | S754_zero _ => inr 0
  | S754_finite s m e => let (n, d) := float_ratio s m e in inr (Z.quot n d)
  | S754_infinity _ => inl OverflowError
  | S754_nan => inl (ValueError "cannot convert float NaN to integer")
  end.

(** The exact value [n / d] of a float that has one. *)
Definition exact_value (x : float) : option (Z * Z) :=
  match Prim2SF x with
  | S754_zero _ => Some (0, 1)
  | S754_finite s m e => Some (float_ratio s m e)
  | _ => None
  end.

(** [float(n)] for an [int] [n], rounded to nearest-even. *)
Definition float_of_int (n : Z) : float :=
  SF2Prim (binary_normalize prec emax n 0 false).

(** A Python number as the report's total can be: the [int] that [sum]
    starts from, or a [float]. *)
Inductive pynum : Type :=
| PyInt (n : Z)
| PyFloat (x : float).

(** The state of the loop of [sum]: an [int] as long as every item was
    an [int], then a [float] with the compensation that CPython 3.12 and
    later carry beside it. *)
Inductive sum_state : Type :=
| SumInt (n : Z)
| SumFloat (f c : float).

(** One round of the [float] loop of [sum] from CPython 3.12 on
    (Neumaier's summation): [t = f + x], and the rounding error of that
    addition goes to the compensation, [(f - t) + x] when
    [fabs(f) >= fabs(x)] and [(x - t) + f] otherwise. *)
Definition neumaier (f c x : float) : float * float :=
  let t := PrimFloat.add f x in
  if PrimFloat.leb (PrimFloat.abs x) (PrimFloat.abs f) then
    (t, PrimFloat.add c (PrimFloat.add (PrimFloat.sub f t) x))
  else
    (t, PrimFloat.add c (PrimFloat.add (PrimFloat.sub x t) f)).

(** The end of that loop: the compensation is added when it is not zero
    and is finite ([if (c && Py_IS_FINITE(c))]). *)
Definition compensate (f c : float) : float :=
  if negb (PrimFloat.is_zero c) && PrimFloat.is_finite c
  then PrimFloat.add f c else f.

(** [int(x)] for a number. *)
Definition py_int_of_num (x : pynum) : exn + Z :=
  match x with
  | PyInt n => inr n
  | PyFloat f => int_of_float f
  end.

(* ------------------------------------------------------------------ *)
(** ** [human_readable_seconds]                                          *)
(* ------------------------------------------------------------------ *)

(** Python's [//] and [%] by a positive divisor are the floor division
    and its remainder, as [Z.div] and [Z.modulo] are. *)
Definition human_readable_seconds (seconds : Z) : string :=
  if seconds <? 60 then
    str_int seconds ++ " second(s)"
  else if seconds <? 3600 then
    let minutes := seconds / 60 in
    let rem := seconds mod 60 in
    str_int minutes ++ " minute(s), " ++ str_int rem ++ " second(s)"
  else
    let hours := seconds / 3600 in
    let rem := seconds mod 3600 in
    let minutes := rem / 60 in
    let rem_seconds := rem mod 60 in
    str_int hours ++ " hour(s), " ++ str_int minutes ++ " minute(s), "
      ++ str_int rem_seconds ++ " second(s)".

(* ------------------------------------------------------------------ *)
(** ** The insertion-ordered [dict]                                      *)
(* ------------------------------------------------------------------ *)

(** A Python [dict] iterates in insertion order and holds a key once:
    an association list whose keys are pairwise distinct, new keys
    appended at the end, an updated key keeping its place. *)
Section Dict.
Context {K V : Type} (eqb : K -> K -> bool).

Definition dict : Type := list (K * V).

(** [d.get(k)]. *)
Fixpoint dict_get (k : K) (d : dict) : option V :=
  match d with
  | [] => None
  | (k', v) :: d' => if eqb k' k then Some v else dict_get k d'
  end.

(** [k in d]. *)
Definition dict_contains (k : K) (d : dict) : bool :=
  match dict_get k d with Some _ => true | None => false end.

(** [d[k]]: [KeyError] when [k] is absent. *)
Definition dict_getitem (k : K) (d : dict) : exn + V :=
  match dict_get k d with
  | Some v => inr v
  | None => inl KeyError
  end.

(** [d[k] = v]. *)
Fixpoint dict_set (k : K) (v : V) (d : dict) : dict :=
  match d with
  | [] => [(k, v)]
  | (k', v') :: d' =>
      if eqb k' k then (k', v) :: d' else (k', v') :: dict_set k v d'
  end.

(** [del d[k]]: [KeyError] when [k] is absent. *)
Definition dict_remove (k : K) (d : dict) : dict :=
  filter (fun kv => negb (eqb (fst kv) k)) d.

Definition dict_delitem (k : K) (d : dict) : exn + dict :=
  match dict_get k d with
  | Some _ => inr (dict_remove k d)
  | None => inl KeyError
  end.

Definition dict_keys (d : dict) : list K := map fst d.
Definition dict_values (d : dict) : list V := map snd d.

End Dict.

(** [sorted(l, key=key)]: Python's sort is stable and ascending, and
    that determines its result.  Elements are inserted from the last to
    the first, each before the first element whose key is not smaller,
    so it stays ahead of the later elements with its key. *)
Fixpoint insert_by {A} (key : A -> nat) (a : A) (l : list A) : list A :=
  match l with
  | [] => [a]
  | b :: l' =>
      if (key a <=? key b)%nat then a :: b :: l' else b :: insert_by key a l'
  end.

Fixpoint sorted {A} (key : A -> nat) (l : list A) : list A :=
  match l with
  | [] => []
  | a :: l' => insert_by key a (sorted key l')
  end.

(** [reversed(l)]. *)
Definition reversed {A} (l : list A) : list A := rev l.

(** The order the specification describes for the groups: a stable sort
    on the count, descending (what [sorted(l, key=key, reverse=True)]
    computes).  An element goes before the first element whose key is
    smaller, behind the later elements with its key. *)
Fixpoint insert_descending {A} (key : A -> nat) (a : A) (l : list A)
  : list A :=
  match l with
  | [] => [a]
  | b :: l' =>
      if (key b <? key a)%nat then a :: b :: l'
      else b :: insert_descending key a l'
  end.

Definition stable_descending {A} (key : A -> nat) (l : list A) : list A :=
  fold_left (fun acc a => insert_descending key a acc) l [].

(** The key of [a] is [n]. *)
Definition key_is {A} (key : A -> nat) (n : nat) (a : A) : bool :=
  (key a =? n)%nat.

(** A [for] loop whose body prints and may raise. *)
Fixpoint for_each {A} (l : list A) (body : A -> M unit) : M unit :=
  match l with
  | [] => ret tt
  | a :: l' => body a ;;; for_each l' body
  end.

(* ------------------------------------------------------------------ *)
(** ** The library the program runs on                                  *)
(* ------------------------------------------------------------------ *)

(** [datetime.timezone]: the program only uses [timezone.utc]. *)
Inductive timezone : Type := utc.

(** [datetime.datetime]. *)
Record datetime : Type := mkDatetime {
  year : Z; month : Z; day : Z;
  hour : Z; minute : Z; second : Z; microsecond : Z;
  tzinfo : option timezone
}.

(** [t.replace(tzinfo=tz)]. *)
Definition replace_tzinfo (t : datetime) (tz : timezone) : datetime :=
  mkDatetime (year t) (month t) (day t) (hour t) (minute t) (second t)
             (microsecond t) (Some tz).

(** What [analyze.py] imports.  A parser returns [None] where Python
    raises [ValueError]. *)
Class PyLib : Type := {
  (** [ipaddress.IPv4Address | ipaddress.IPv6Address], with [==]. *)
  IPAddress : Type;
  ip_eqb : IPAddress -> IPAddress -> bool;
  ip_eqb_eq : forall a b, ip_eqb a b = true <-> a = b;
  (** [ipaddress.ip_address(s)], [str(ip)] and [repr(ip)]. *)
  ip_address : string -> option IPAddress;
  str_ip : IPAddress -> string;
  repr_ip : IPAddress -> string;
  (** [int(s)] and [float(s)] on a [str]. *)
  py_int : string -> option Z;
  py_float : string -> option float;
  (** [datetime.strptime(s, "%Y-%m-%dT%H:%M:%S.%fZ")]. *)
  strptime : string -> option datetime;
  (** [repr] of a [datetime] and of an optional [float]. *)
  repr_datetime : datetime -> string;
  repr_duration : option float -> string;
  (** [get_geoip_info(ip)]: the request to ipinfo.io and [json.loads]
      of its answer, an object read here through its text fields. *)
  get_geoip_info : IPAddress -> exn + list (string * string);
  (** How [sum] adds floats: one after the other (CPython 3.10 and
      3.11) or with Neumaier's compensation (CPython 3.12 and later). *)
  sum_compensated : bool
}.

(** The message of a [ValueError] raised inside the library is
    abbreviated to the name of the function that raised it. *)
Definition parsed {A} (who : string) (r : option A) : exn + A :=
  match r with
  | Some a => inr a
  | None => inl (ValueError who)
  end.

(* ------------------------------------------------------------------ *)
(** ** The program                                                      *)
(* ------------------------------------------------------------------ *)

Inductive ConnectionType : Type := UNKNOWN | ACCEPT | CLOSE.

Definition ConnectionType_eqb (a b : ConnectionType) : bool :=
  match a, b with
  | UNKNOWN, UNKNOWN | ACCEPT, ACCEPT | CLOSE, CLOSE => true
  | _, _ => false
  end.

Definition repr_type (t : ConnectionType) : string :=
  match t with
  | UNKNOWN => "<ConnectionType.UNKNOWN: 0>"
  | ACCEPT => "<ConnectionType.ACCEPT: 1>"
  | CLOSE => "<ConnectionType.CLOSE: 2>"
  end.

(** The part of [argparse]'s namespace that the report reads. *)
Record Args : Type := mkArgs { geo_ip : bool }.

Section Program.
Context {L : PyLib}.

Record ConnectionEvent : Type := mkEvent {
  time : datetime;
  type : ConnectionType;
  ip : IPAddress;
  fd : Z;
  duration : option float
}.

(** The key of a connection: the tuple [(ip, fd)]. *)
Definition Key : Type := (IPAddress * Z)%type.

Definition key_eqb (a b : Key) : bool :=
  ip_eqb (fst a) (fst b) && (snd a =? snd b).

(** [ConnectionEvent.conn]. *)
Definition conn (self : ConnectionEvent) : Key := (ip self, fd self).

(** The [repr] a dataclass generates, and the [repr] of a key tuple. *)
Definition repr_event (e : ConnectionEvent) : string :=
  "ConnectionEvent(time=" ++ repr_datetime (time e)
    ++ ", type=" ++ repr_type (type e)
    ++ ", ip=" ++ repr_ip (ip e)
    ++ ", fd=" ++ str_int (fd e)
    ++ ", duration=" ++ repr_duration (duration e) ++ ")".

Definition repr_key (k : Key) : string :=
  "(" ++ repr_ip (fst k) ++ ", " ++ str_int (snd k) ++ ")".

(** [ConnectionEvent.from_journal]: [None] for a line that is not an
    event, an exception for a field that does not parse. *)
Definition from_journal (msg : string) : M (option ConnectionEvent) :=
  let split := str_split space msg in
  if (List.length split <? 6)%nat then ret None
  else
    f2 <- lift (getitem split 2) ;;
    if negb (startswith "host=" f2) then ret None
    else
      a <- lift (getitem (str_split equals_sign f2) 1) ;;
      ip <- lift (parsed "ip_address" (ip_address a)) ;;
      f4 <- lift (getitem split 4) ;;
      d <- lift (getitem (str_split equals_sign f4) 1) ;;
      fd <- lift (parsed "int" (py_int d)) ;;
      f1 <- lift (getitem split 1) ;;
      td <- (if String.eqb f1 "ACCEPT" then ret (ACCEPT, None)
             else if String.eqb f1 "CLOSE" then
               f5 <- lift (getitem split 5) ;;
               x <- lift (getitem (str_split equals_sign f5) 1) ;;
               duration <- lift (parsed "float" (py_float x)) ;;
               ret (CLOSE, Some duration)
             else
               print ("Unmatched connection type " ++ f1) ;;;
               ret (UNKNOWN, None)) ;;
      f0 <- lift (getitem split 0) ;;
      time <- lift (parsed "strptime" (strptime f0)) ;;
      ret (Some (mkEvent (replace_tzinfo time utc) (fst td) ip fd (snd td))).

Record Connection : Type := mkConnection { events : list ConnectionEvent }.

(** [Connection.add_event].  The object is mutated in place; the model
    returns the new value, and the caller stores it where the object
    lives. *)
Definition add_event (self : Connection) (event : ConnectionEvent)
  : exn + Connection :=
  match events self with
  | [] => inr (mkConnection [event])
  | _ :: _ =>
      match last_item (events self) with
      | inl e => inl e
      | inr l =>
          if negb (ip_eqb (ip l) (ip event)) then
            inl (ValueError "Invalid IP for connection!")
          else if negb (fd l =? fd event) then
            inl (ValueError "Invalid fd for connection!")
          else inr (mkConnection (events self ++ [event])%list)
      end
  end.

(** [Connection.get_ip] and [Connection.get_duration]. *)
Definition get_ip (self : Connection) : exn + IPAddress :=
  match getitem (events self) 0 with
  | inl e => inl e
  | inr e => inr (ip e)
  end.

Definition get_duration (self : Connection) : exn + option float :=
  match last_item (events self) with
  | inl e => inl e
  | inr e => inr (duration e)
  end.

(** A dataclass instance defines neither [__bool__] nor [__len__]: it is
    always true in a condition. *)
Definition truthy (c : Connection) : bool := true.

(** The two variables of the loop of [main]. *)
Record State : Type := mkState {
  closed_connections : list Connection;
  open_connections : list (Key * Connection)
}.

Definition init : State := mkState [] [].

(** The body of the loop of [main] for one event: the [ACCEPT] test,
    then the [CLOSE] test. *)
Definition accept_step (st : State) (event : ConnectionEvent) : M State :=
  match dict_get key_eqb (conn event) (open_connections st) with
  | Some c =>
      if truthy c then
        c' <- lift (add_event c event) ;;
        ret (mkState (closed_connections st)
                     (dict_set key_eqb (conn event) c' (open_connections st)))
      else
        ret (mkState (closed_connections st)
                     (dict_set key_eqb (conn event) (mkConnection [event])
                               (open_connections st)))
  | None =>
      ret (mkState (closed_connections st)
                   (dict_set key_eqb (conn event) (mkConnection [event])
                             (open_connections st)))
  end.

Definition close_step (st : State) (event : ConnectionEvent) : M State :=
  connection <- lift (dict_getitem key_eqb (conn event) (open_connections st)) ;;
  if negb (truthy connection) then
    eprint ("Closing leftover connection: event=" ++ repr_event event) ;;;
    ret st
  else
    connection' <- lift (add_event connection event) ;;
    opened <- lift (dict_delitem key_eqb (conn event)
                      (dict_set key_eqb (conn event) connection'
                                (open_connections st))) ;;
    ret (mkState (closed_connections st ++ [connection'])%list opened).

Definition process_event (st : State) (event : ConnectionEvent) : M State :=
  st1 <- (if ConnectionType_eqb (type event) ACCEPT
          then accept_step st event else ret st) ;;
  if ConnectionType_eqb (type event) CLOSE
  then close_step st1 event else ret st1.

(** One iteration: parse the message, skip it when it is not an event. *)
Definition process_message (st : State) (msg : string) : M State :=
  ev <- from_journal msg ;;
  match ev with
  | None => ret st
  | Some event => process_event st event
  end.

Fixpoint run_events (st : State) (evs : list ConnectionEvent) : M State :=
  match evs with
  | [] => ret st
  | e :: evs' => st' <- process_event st e ;; run_events st' evs'
  end.

Fixpoint main_loop (st : State) (msgs : list string) : M State :=
  match msgs with
  | [] => ret st
  | msg :: msgs' => st' <- process_message st msg ;; main_loop st' msgs'
  end.

(** The section of the report on the connections still open. *)
Definition open_line (k : Key) : string :=
  String tab ("event=" ++ repr_key k).

Definition report_open (opened : list (Key * Connection)) : M unit :=
  (match opened with
   | [] => ret tt
   | _ :: _ => print EmptyString ;;; print "Currently open connections:"
   end) ;;;
  for_each (dict_keys opened) (fun event => print (open_line event)).

(** The grouping loop: [grouped_connections], a dict from address to
    the list of its connections. *)
Fixpoint group_from (grouped : list (IPAddress * list Connection))
  (closed : list Connection) : exn + list (IPAddress * list Connection) :=
  match closed with
  | [] => inr grouped
  | c :: closed' =>
      match get_ip c with
      | inl e => inl e
      | inr a =>
          match dict_get ip_eqb a grouped with
          | Some l => group_from (dict_set ip_eqb a (l ++ [c])%list grouped) closed'
          | None => group_from (dict_set ip_eqb a [c] grouped) closed'
          end
      end
  end.

Definition group_connections (closed : list Connection)
  : exn + list (IPAddress * list Connection) :=
  group_from [] closed.

(** The order of the report: [reversed(sorted(values, key=len))]. *)
Definition ordered_groups (grouped : list (IPAddress * list Connection))
  : list (list Connection) :=
  reversed (sorted (@List.length Connection) (dict_values grouped)).

(** [sum] starts from its second argument, the [int] [0] in the
    program. *)
Definition sum_start (start : pynum) : sum_state :=
  match start with
  | PyInt n => SumInt n
  | PyFloat x => SumFloat x 0%float
  end.

(** One [float] item: the first one is added to the [int] with [+];
    the later ones are added in the [float] loop. *)
Definition sum_step (st : sum_state) (x : float) : sum_state :=
  match st with
  | SumInt n => SumFloat (PrimFloat.add (float_of_int n) x) 0%float
  | SumFloat f c =>
      if sum_compensated then
        let (f', c') := neumaier f c x in SumFloat f' c'
      else SumFloat (PrimFloat.add f x) c
  end.

(** One item of the generator: on [None], [+] raises [TypeError]. *)
Definition sum_add (st : sum_state) (d : option float) : exn + sum_state :=
  match d with
  | None => inl TypeError
  | Some x => inr (sum_step st x)
  end.

Definition sum_finish (st : sum_state) : pynum :=
  match st with
  | SumInt n => PyInt n
  | SumFloat f c => PyFloat (if sum_compensated then compensate f c else f)
  end.

(** [sum(ds)] for a list of floats. *)
Definition sum_floats (ds : list float) : pynum :=
  sum_finish (fold_left sum_step ds (SumInt 0)).

(** [sum(conn.get_duration() for conn in conns)]: the generator yields
    one duration at a time and [sum] adds it before asking the next. *)
Fixpoint sum_loop (st : sum_state) (conns : list Connection) : exn + pynum :=
  match conns with
  | [] => inr (sum_finish st)
  | c :: conns' =>
      match get_duration c with
      | inl e => inl e
      | inr d =>
          match sum_add st d with
          | inl e => inl e
          | inr st' => sum_loop st' conns'
          end
      end
  end.

Definition sum_durations (start : pynum) (conns : list Connection)
  : exn + pynum :=
  sum_loop (sum_start start) conns.

(** The geolocation part of a report line. *)
Definition geoip_suffix (info : list (string * string)) : string :=
  let get := dict_get String.eqb in
  (match get "hostname" info with
   | Some h => " " ++ h
   | None => EmptyString
   end)
  ++ (match get "org" info with
      | Some o => " " ++ o
      | None => EmptyString
      end)
  ++ (match get "region" info with
      | Some r =>
          " (" ++ r ++ ", "
            ++ (match get "country" info with Some c => c | None => "?" end)
            ++ ")"
      | None => EmptyString
      end).

(** The body of the last loop of [main]: one line per group. *)
Definition report_group (args : Args) (conns : list Connection) : M unit :=
  c0 <- lift (getitem conns 0) ;;
  ip <- lift (get_ip c0) ;;
  duration <- lift (sum_durations (PyInt 0) conns) ;;
  msg <- (if geo_ip args then
            geoip_info <- lift (get_geoip_info ip) ;;
            ret (str_ip ip ++ geoip_suffix geoip_info)
          else ret (str_ip ip)) ;;
  seconds <- lift (py_int_of_num duration) ;;
  print (msg ++ ": " ++ str_int (Z.of_nat (List.length conns))
             ++ " connections, spent " ++ human_readable_seconds seconds).

(** [main] after the loop: the open connections, the number of closed
    ones, then the groups. *)
Definition report (args : Args) (st : State) : M unit :=
  report_open (open_connections st) ;;;
  print EmptyString ;;;
  print ("Closed connections: "
           ++ str_int (Z.of_nat (List.length (closed_connections st)))) ;;;
  grouped <- lift (group_connections (closed_connections st)) ;;
  for_each (ordered_groups grouped) (report_group args).

(** [main], from the messages the journal yields. *)
Definition main (args : Args) (msgs : list string) : M unit :=
  st <- main_loop init msgs ;;
  report args st.

End Program.

(* ------------------------------------------------------------------ *)
(** ** What the claims speak of                                         *)
(* ------------------------------------------------------------------ *)

Section Specification.
Context {L : PyLib}.

(** All events of a connection carry the address and the descriptor of
    its first event. *)
Definition conn_inv (c : Connection) : Prop :=
  match events c with
  | [] => True
  | first :: _ =>
      Forall (fun e => ip e = ip first /\ fd e = fd first) (events c)
  end.

(** A connection registered under [k]: accepted at least once, and
    nothing but [ACCEPT] events of that key. *)
Definition open_ok (k : Key) (c : Connection) : Prop :=
  events c <> [] /\
  Forall (fun e => conn e = k /\ type e = ACCEPT) (events c).

(** A closed connection: [ACCEPT] events of one key, then its [CLOSE]. *)
Definition closed_ok (c : Connection) : Prop :=
  exists es e,
    events c = (es ++ [e])%list /\ es <> [] /\ type e = CLOSE /\
    Forall (fun e' => conn e' = conn e /\ type e' = ACCEPT) es.

(** The invariant of the loop: the keys of the open mapping are
    distinct, its connections are open ones, the closed connections are
    closed ones. *)
Record Inv (st : State) : Prop := mkInv {
  inv_keys : NoDup (dict_keys (open_connections st));
  inv_open : forall k c, In (k, c) (open_connections st) -> open_ok k c;
  inv_closed : forall c, In c (closed_connections st) -> closed_ok c
}.

(** The parser's promise on an event: a duration exactly on [CLOSE]. *)
Definition event_wf (e : ConnectionEvent) : Prop :=
  duration e <> None <-> type e = CLOSE.

(** Every closed connection has a duration. *)
Definition closed_timed (st : State) : Prop :=
  forall c, In c (closed_connections st) ->
            exists x, get_duration c = inr (Some x).

(** The connection's address is [a]. *)
Definition has_ip (a : IPAddress) (c : Connection) : bool :=
  match get_ip c with
  | inr a' => ip_eqb a' a
  | inl _ => false
  end.

(** The addresses of a list in the order of their first occurrence. *)
Fixpoint encounter (l : list IPAddress) : list IPAddress :=
  match l with
  | [] => []
  | a :: l' => a :: filter (fun b => negb (ip_eqb b a)) (encounter l')
  end.

(** The claim on the order of the groups, as the specification states
    it: descending in the count, equal counts in encounter order. *)
Definition groups_in_stated_order (closed : list Connection) : Prop :=
  forall grouped,
    group_connections closed = inr grouped ->
    ordered_groups grouped
    = stable_descending (@List.length Connection) (dict_values grouped).

(** Field [i] of a line, [msg.split(" ")[i]], and the text that follows
    the first [=] of a field, [s.split("=")[1]]. *)
Definition field (i : nat) (msg : string) : string :=
  nth i (str_split space msg) EmptyString.

Definition value_of (s : string) : option string :=
  nth_error (str_split equals_sign s) 1.

(** The line is not an event: fewer than six fields, or a field 2 that
    does not begin with [host=]. *)
Definition skipped (msg : string) : bool :=
  (List.length (str_split space msg) <? 6)%nat
  || negb (startswith "host=" (field 2 msg)).

(** The values that fail to parse: the text after the [=] is missing
    (the subscript [[1]] raises) or the library rejects it. *)
Definition bad_address (msg : string) : Prop :=
  match value_of (field 2 msg) with
  | Some a => ip_address a = None
  | None => True
  end.

Definition bad_descriptor (msg : string) : Prop :=
  match value_of (field 4 msg) with
  | Some d => py_int d = None
  | None => True
  end.

(** The duration is read on a [CLOSE] only. *)
Definition bad_duration (msg : string) : Prop :=
  field 1 msg = "CLOSE" /\
  match value_of (field 5 msg) with
  | Some x => py_float x = None
  | None => True
  end.

Definition bad_timestamp (msg : string) : Prop :=
  strptime (field 0 msg) = None.

(** The computation ends in an exception. *)
Definition raises {A} (m : M A) : Prop := exists e, outcome m = inl e.

(** The claim on the three behaviours of the parser, as the
    specification states it: the fatal cases are a bad address, a bad
    descriptor and a bad duration, and every other line with six fields
    and a [host=] gives an event. *)
Definition parser_as_stated (msg : string) : Prop :=
  (skipped msg = true -> from_journal msg = ([], inr None)) /\
  (skipped msg = false ->
   (raises (from_journal msg)
    <-> bad_address msg \/ bad_descriptor msg \/ bad_duration msg)) /\
  (skipped msg = false ->
   ~ (bad_address msg \/ bad_descriptor msg \/ bad_duration msg) ->
   exists ev, outcome (from_journal msg) = inr (Some ev)).

(** The kind of event a keyword stands for. *)
Definition type_of_keyword (kw : string) : ConnectionType :=
  if String.eqb kw "ACCEPT" then ACCEPT
  else if String.eqb kw "CLOSE" then CLOSE
  else UNKNOWN.

(** The end of [from_journal]: the timestamp, then the event. *)
Definition finish (msg : string) (o : list Out) (ty : ConnectionType)
           (a : IPAddress) (n : Z) (du : option float)
  : M (option ConnectionEvent) :=
  match strptime (field 0 msg) with
  | None => (o, inl (ValueError "strptime"))
  | Some t => (o, inr (Some (mkEvent (replace_tzinfo t utc) ty a n du)))
  end.

(** What the parser prints: the diagnostic of an unknown keyword. *)
Definition diagnostic (msg : string) : list Out :=
  match type_of_keyword (field 1 msg) with
  | UNKNOWN => [Stdout ("Unmatched connection type " ++ field 1 msg)]
  | _ => []
  end.

(** The value of an optional text under an optional parser. *)
Definition parse_value {A} (p : string -> option A) (s : option string)
  : option A :=
  match s with
  | Some x => p x
  | None => None
  end.

(** The text before the colon of a report line. *)
Definition message_of (args : Args) (a : IPAddress) : exn + string :=
  if geo_ip args then
    match get_geoip_info a with
    | inl e => inl e
    | inr info => inr (str_ip a ++ geoip_suffix info)
    end
  else inr (str_ip a).

(** The line of a group. *)
Definition group_line (msg : string) (count : nat) (seconds : Z) : string :=
  msg ++ ": " ++ str_int (Z.of_nat count) ++ " connections, spent "
      ++ human_readable_seconds seconds.

End Specification.

(* ------------------------------------------------------------------ *)
(** ** A reference library                                               *)
(* ------------------------------------------------------------------ *)

(** An instance of [PyLib] to run the program on.  Its parsers accept
    dotted-quad IPv4 addresses, decimal integers with an optional sign,
    decimal numbers written as digits or as digits, a point and digits,
    and timestamps whose fields have two digits; on these they compute
    what CPython computes (for a number of at most fifteen digits, the
    quotient of two exactly represented integers is the correctly
    rounded value).  They reject everything else.  The host has no
    network: the geolocation request raises.  [sum] adds as CPython
    3.10 and 3.11 do in [lib], as CPython 3.12 does in [lib_312]. *)
Module Ref.

Definition digit_value (c : ascii) : option Z :=
  let n := Z.of_nat (nat_of_ascii c) in
  if (48 <=? n) && (n <=? 57) then Some (n - 48) else None.

Fixpoint digits_from (acc : Z) (s : string) : option Z :=
  match s with
  | EmptyString => Some acc
  | String c s' =>
      match digit_value c with
      | Some d => digits_from (10 * acc + d) s'
      | None => None
      end
  end.

(** The value of a non-empty string of decimal digits. *)
Definition digits (s : string) : option Z :=
  match s with
  | EmptyString => None
  | String _ _ => digits_from 0 s
  end.

(** One octet of a dotted quad: one to three digits, no leading zero,
    at most 255. *)
Definition octet (s : string) : option Z :=
  match digits s with
  | Some n =>
      if (String.length s <=? 3)%nat
         && (n <=? 255)
         && ((String.length s =? 1)%nat || negb (startswith "0" s))
      then Some n else None
  | None => None
  end.

(** An IPv4 address is the integer [IPv4Address._ip]. *)
Definition ip_address (s : string) : option N :=
  match str_split "."%char s with
  | [a; b; c; d] =>
      match octet a, octet b, octet c, octet d with
      | Some a, Some b, Some c, Some d =>
          Some (Z.to_N (((a * 256 + b) * 256 + c) * 256 + d))
      | _, _, _, _ => None
      end
  | _ => None
  end.

Definition str_ip (a : N) : string :=
  let n := Z.of_N a in
  str_int (n / 16777216 mod 256) ++ "." ++ str_int (n / 65536 mod 256)
    ++ "." ++ str_int (n / 256 mod 256) ++ "." ++ str_int (n mod 256).

Definition repr_ip (a : N) : string := "IPv4Address('" ++ str_ip a ++ "')".

Definition py_int (s : string) : option Z :=
  match s with
  | String "-"%char s' => option_map Z.opp (digits s')
  | String "+"%char s' => digits s'
  | _ => digits s
  end.

(** [digits], or [digits.digits]. *)
Definition unsigned_float (s : string) : option float :=
  match str_split "."%char s with
  | [i] => option_map float_of_int (digits i)
  | [i; f] =>
      match digits i, digits f with
      | Some n, Some m =>
          let k := Z.of_nat (String.length f) in
          Some (PrimFloat.div (float_of_int (n * 10 ^ k + m))
                              (float_of_int (10 ^ k)))
      | _, _ => None
      end
  | _ => None
  end.

Definition py_float (s : string) : option float :=
  match s with
  | String "-"%char s' => option_map PrimFloat.opp (unsigned_float s')
  | String "+"%char s' => unsigned_float s'
  | _ => unsigned_float s
  end.

Definition leap (y : Z) : bool :=
  ((y mod 4 =? 0) && negb (y mod 100 =? 0)) || (y mod 400 =? 0).

Definition days_in_month (y m : Z) : Z :=
  if m =? 2 then (if leap y then 29 else 28)
  else if (m =? 4) || (m =? 6) || (m =? 9) || (m =? 11) then 30
  else 31.

Definition between (lo x hi : Z) : bool := (lo <=? x) && (x <=? hi).

(** [YYYY-MM-DDTHH:MM:SS.f...Z] with one to six digits of fraction. *)
Definition strptime (s : string) : option datetime :=
  let sub := fun i n => substring i n s in
  let len := String.length s in
  let nf := (len - 21)%nat in
  if (21 <? len)%nat && (len <=? 27)%nat
     && String.eqb (sub 4 1)%nat "-" && String.eqb (sub 7 1)%nat "-"
     && String.eqb (sub 10 1)%nat "T" && String.eqb (sub 13 1)%nat ":"
     && String.eqb (sub 16 1)%nat ":" && String.eqb (sub 19 1)%nat "."
     && String.eqb (sub (20 + nf) 1)%nat "Z"
  then
    match digits (sub 0 4)%nat, digits (sub 5 2)%nat, digits (sub 8 2)%nat,
          digits (sub 11 2)%nat, digits (sub 14 2)%nat, digits (sub 17 2)%nat,
          digits (sub 20 nf)%nat with
    | Some y, Some mo, Some d, Some h, Some mi, Some sec, Some f =>
        if between 1 y 9999 && between 1 mo 12
           && between 1 d (days_in_month y mo)
           && between 0 h 23 && between 0 mi 59 && between 0 sec 59
        then Some (mkDatetime y mo d h mi sec
                     (f * 10 ^ (6 - Z.of_nat nf)) None)
        else None
    | _, _, _, _, _, _, _ => None
    end
  else None.

(** [repr] leaves out a zero microsecond, and then a zero second. *)
Definition repr_datetime (t : datetime) : string :=
  "datetime.datetime(" ++ str_int (year t) ++ ", " ++ str_int (month t)
    ++ ", " ++ str_int (day t) ++ ", " ++ str_int (hour t)
    ++ ", " ++ str_int (minute t)
    ++ (if microsecond t =? 0 then
          if second t =? 0 then EmptyString else ", " ++ str_int (second t)
        else ", " ++ str_int (second t) ++ ", " ++ str_int (microsecond t))
    ++ (match tzinfo t with
        | Some utc => ", tzinfo=datetime.timezone.utc"
        | None => EmptyString
        end)
    ++ ")".

(** The decimal digits of [n], padded on the left to [k] digits. *)
Fixpoint pad_left (k : nat) (s : string) : string :=
  if (k <=? String.length s)%nat then s
  else match k with
       | O => s
       | S k' => pad_left k' ("0" ++ s)
       end.

(** The fraction [n / 10^k] without its trailing zeros. *)
Fixpoint fraction_digits (fuel : nat) (n k : Z) : string :=
  match fuel with
  | O => EmptyString
  | S fuel' =>
      if (k <=? 0) || (n =? 0) then EmptyString
      else str_int (n / 10 ^ (k - 1))
             ++ fraction_digits fuel' (n mod 10 ^ (k - 1)) (k - 1)
  end.

(** The exact decimal expansion of a float; it is Python's [repr] for
    the floats whose shortest decimal form is exact, like [5.0] and
    [2.5]. *)
Definition repr_float (x : float) : string :=
  match Prim2SF x with
  | S754_zero s => if s then "-0.0" else "0.0"
  | S754_infinity s => if s then "-inf" else "inf"
  | S754_nan => "nan"
  | S754_finite s m e =>
      let k := Z.max (- e) 0 in
      let n := Z.pos m * 2 ^ Z.max e 0 in
      let frac := (n mod 2 ^ k) * 5 ^ k in
      (if s then "-" else EmptyString) ++ str_int (n / 2 ^ k) ++ "."
        ++ (if frac =? 0 then "0"
            else fraction_digits (Z.to_nat k) frac k)
  end.

Definition repr_duration (d : option float) : string :=
  match d with
  | None => "None"
  | Some x => repr_float x
  end.

Definition get_geoip_info (a : N) : exn + list (string * string) :=
  inl URLError.

Definition lib : PyLib :=
  Build_PyLib N N.eqb N.eqb_eq ip_address str_ip repr_ip py_int py_float
              strptime repr_datetime repr_duration get_geoip_info false.

(** The same library under CPython 3.12 or later. *)
Definition lib_312 : PyLib :=
  Build_PyLib N N.eqb N.eqb_eq ip_address str_ip repr_ip py_int py_float
              strptime repr_datetime repr_duration get_geoip_info true.

(** The two lines of the specification's first scenario. *)
Definition accept_line : string :=
  "2025-08-01T10:00:00.000000Z ACCEPT host=1.2.3.4 n fd=5 x".
Definition close_line : string :=
  "2025-08-01T10:00:05.000000Z CLOSE host=1.2.3.4 n fd=5 duration=5.0".

End Ref.

(* ------------------------------------------------------------------ *)

Module Scenario.

Definition ip_1_2_3_4 : @IPAddress Ref.lib := 16909060%N.
Definition ip_5_6_7_8 : @IPAddress Ref.lib := 84281096%N.

Definition at_time (h mi s us : Z) : datetime :=
  mkDatetime 2025 8 1 h mi s us (Some utc).

(** The events of [Ref.accept_line] and [Ref.close_line]. *)
Definition accept_event : @ConnectionEvent Ref.lib :=
  mkEvent (at_time 10 0 0 0) ACCEPT ip_1_2_3_4 5 None.
Definition close_event : @ConnectionEvent Ref.lib :=
  mkEvent (at_time 10 0 5 0) CLOSE ip_1_2_3_4 5 (Some 5%float).

(** A second source. *)
Definition accept_line_2 : string :=
  "2025-08-01T10:00:06.000000Z ACCEPT host=5.6.7.8 n fd=6 x".
Definition close_line_2 : string :=
  "2025-08-01T10:00:16.000000Z CLOSE host=5.6.7.8 n fd=6 duration=10.0".
Definition accept_event_2 : @ConnectionEvent Ref.lib :=
  mkEvent (at_time 10 0 6 0) ACCEPT ip_5_6_7_8 6 None.
Definition close_event_2 : @ConnectionEvent Ref.lib :=
  mkEvent (at_time 10 0 16 0) CLOSE ip_5_6_7_8 6 (Some 10%float).

(** A second descriptor of the first source. *)
Definition accept_line_3 : string :=
  "2025-08-01T10:00:07.000000Z ACCEPT host=1.2.3.4 n fd=7 x".
Definition close_line_3 : string :=
  "2025-08-01T10:00:17.000000Z CLOSE host=1.2.3.4 n fd=7 duration=10.0".

(** A close after 5.9 seconds; the float nearest to 5.9. *)
Definition close_line_5_9 : string :=
  "2025-08-01T10:00:05.900000Z CLOSE host=1.2.3.4 n fd=5 duration=5.9".
Definition float_5_9 : float := 0x1.799999999999ap+2%float.
Definition close_event_5_9 : @ConnectionEvent Ref.lib :=
  mkEvent (at_time 10 0 5 900000) CLOSE ip_1_2_3_4 5 (Some float_5_9).

(** A timestamp without a fraction of a second, and a line with two
    spaces after the address. *)
Definition whole_second_line : string :=
  "2025-08-01T10:00:00Z ACCEPT host=1.2.3.4 n fd=5 x".
Definition double_space_line : string :=
  "2025-08-01T10:00:00.000000Z ACCEPT host=1.2.3.4  fd=5 x".

Definition connection_1 : @Connection Ref.lib :=
  mkConnection [accept_event; close_event].
Definition connection_2 : @Connection Ref.lib :=
  mkConnection [accept_event_2; close_event_2].
Definition connection_5_9 : @Connection Ref.lib :=
  mkConnection [accept_event; close_event_5_9].

(** The closed connections after the four lines of the two sources. *)
Definition two_sources : list (@Connection Ref.lib) :=
  [connection_1; connection_2].
Definition two_groups : list (@IPAddress Ref.lib * list (@Connection Ref.lib)) :=
  [(ip_1_2_3_4, [connection_1]); (ip_5_6_7_8, [connection_2])].

(** The state after [Ref.accept_line] alone. *)
Definition one_open : @State Ref.lib :=
  mkState [] [(conn accept_event, mkConnection [accept_event])].

(** The state after [Ref.accept_line] and [Ref.close_line]. *)
Definition one_closed : @State Ref.lib := mkState [connection_1] [].


(** The state after the two lines of the first scenario and the
    [ACCEPT] of the second source. *)
Definition closed_and_open : @State Ref.lib :=
  mkState [connection_1]
          [(conn accept_event_2, mkConnection [accept_event_2])].

(** Ten connections of a tenth of a second each. *)
Definition close_line_0_1 : string :=
  "2025-08-01T10:00:00.100000Z CLOSE host=1.2.3.4 n fd=5 duration=0.1".
Definition ten_tenths : list string :=
  List.concat (repeat [Ref.accept_line; close_line_0_1] 10).

End Scenario.

(* ------------------------------------------------------------------ *)
(** ** The rest of [analyze.py]: geolocation address, journal, start    *)
(* ------------------------------------------------------------------ *)

(** [c in s] for a one-character string [c]. *)
Fixpoint contains (c : ascii) (s : string) : bool :=
  match s with
  | EmptyString => false
  | String c' s' => Ascii.eqb c' c || contains c s'
  end.

(** The address that [get_geoip_info] asks about: the text of the
    address, or, when it holds both a point and a colon, what follows
    its last colon ([ip_str.split(":")[-1]]). *)
Definition geoip_address (ip_str : string) : exn + string :=
  if contains "."%char ip_str && contains ":"%char ip_str then
    last_item (str_split ":"%char ip_str)
  else inr ip_str.

(** [get_geoip_info], the request and the decoding of its answer being
    [urlopen_json]. *)
Definition get_geoip_info_from {L : PyLib}
           (urlopen_json : string -> exn + list (string * string))
           (a : IPAddress) : exn + list (string * string) :=
  match geoip_address (str_ip a) with
  | inl e => inl e
  | inr ip_str => urlopen_json ("https://ipinfo.io/" ++ ip_str)
  end.

(** One entry of the journal as the program reads it: the integer
    seconds of its ["__REALTIME_TIMESTAMP"] and its ["MESSAGE"], if it
    has one. *)
Record Entry : Type := mkEntry {
  realtime : Z;
  MESSAGE : option string
}.

(** [entry.get("MESSAGE", "<no message>")]. *)
Definition entry_message (entry : Entry) : string :=
  match MESSAGE entry with
  | Some m => m
  | None => "<no message>"
  end.

(** The reader after its matches and [seek_realtime]: the entries that
    [get_next] is going to return, one per call, and then the empty
    entry for ever. *)
Definition Reader : Type := list Entry.

Definition get_next (j : Reader) : option Entry * Reader :=
  match j with
  | [] => (None, [])
  | entry :: j' => (Some entry, j')
  end.

(** The [while True] loop of [yield_journal_messages]: every round
    takes the next entry, stops at the empty entry and at an entry later
    than [end_time], and yields the message otherwise. *)
Fixpoint yield_loop (end_time : Z) (j : Reader) : list string :=
  match j with
  | [] => []
  | entry :: j' =>
      if end_time <? realtime entry then []
      else entry_message entry :: yield_loop end_time j'
  end.

(** [yield_journal_messages]: one [get_next] whose entry is dropped,
    then the loop. *)
Definition yield_journal_messages (end_time : Z) (j : Reader) : list string :=
  let (_, j') := get_next j in yield_loop end_time j'.

Definition DATETIME_FORMAT : string := "%Y-%m-%dT%H:%M:%S".

(** The namespace of [argparse]: the options as the command line gives
    them. *)
Record Namespace : Type := mkNamespace {
  ns_unit : string;
  ns_user : bool;
  ns_geo_ip : bool;
  ns_start : option string;
  ns_end : option string;
  ns_today : bool;
  ns_yesterday : bool
}.

(** The ways in which [parse_arguments] ends in [parser.error]: the
    mutually exclusive group of [--today] and [--yesterday], and the two
    messages of the function. *)
Inductive usage_error : Type :=
| NotAllowedTogether
| UsageMessage (msg : string).

Definition is_given {A} (o : option A) : bool :=
  match o with Some _ => true | None => false end.

(** [parse_arguments], after [argparse] has read the command line into
    [given]. *)
Definition parse_arguments (given : Namespace) : usage_error + Namespace :=
  if ns_today given && ns_yesterday given then inl NotAllowedTogether
  else if ns_today given || ns_yesterday given then
    if is_given (ns_start given) || is_given (ns_end given) then
      inl (UsageMessage
             "When using --today or --yesterday, you cannot specify --start or --end")
    else inr given
  else
    if negb (is_given (ns_start given)) || negb (is_given (ns_end given)) then
      inl (UsageMessage
             "You must specify both --start and --end if not using --today or --yesterday")
    else inr given.

(** The host the program runs on: the clock, the conversion of a local
    date and time to integer seconds ([int(dt.timestamp())], which
    raises at the ends of the range of years),
    [datetime.strptime(s, DATETIME_FORMAT)], and the journal: the reader
    for the user or the system journal of a unit after
    [seek_realtime(start_time)]. *)
Class PyHost : Type := {
  now : datetime;
  timestamp : datetime -> exn + Z;
  strptime_arg : string -> option datetime;
  journal : bool -> string -> Z -> Reader
}.

(** [datetime.combine(d, time.min)] and [datetime.combine(d, time.max)]. *)
Definition combine_min (d : datetime) : datetime :=
  mkDatetime (year d) (month d) (day d) 0 0 0 0 None.
Definition combine_max (d : datetime) : datetime :=
  mkDatetime (year d) (month d) (day d) 23 59 59 999999 None.

Definition is_leap (y : Z) : bool :=
  ((y mod 4 =? 0) && negb (y mod 100 =? 0)) || (y mod 400 =? 0).

Definition month_length (y m : Z) : Z :=
  if m =? 2 then (if is_leap y then 29 else 28)
  else if (m =? 4) || (m =? 6) || (m =? 9) || (m =? 11) then 30
  else 31.

(** [d - timedelta(days=1)] on the date of [d]: [OverflowError] before
    the first day of year 1. *)
Definition day_before (d : datetime) : exn + datetime :=
  if 1 <? day d then
    inr (mkDatetime (year d) (month d) (day d - 1) 0 0 0 0 None)
  else if 1 <? month d then
    inr (mkDatetime (year d) (month d - 1)
                    (month_length (year d) (month d - 1)) 0 0 0 0 None)
  else if 1 <? year d then
    inr (mkDatetime (year d - 1) 12 31 0 0 0 0 None)
  else inl OverflowError.

(** How the program ends: [sys.exit] with a status, [parser.error]
    (usage and message on standard error, status 2), an exception that
    nothing catches, or the end of [main]. *)
Inductive Ending : Type :=
| Exited (code : Z)
| Usage (e : usage_error)
| Uncaught (e : exn)
| Returned.

Section Startup.
Context {L : PyLib} {H : PyHost}.

(** [int(start.timestamp()), int(end.timestamp())]: the first
    conversion, then the second. *)
Definition timestamps (start_dt end_dt : datetime) : exn + Z * Z :=
  match timestamp start_dt with
  | inl e => inl e
  | inr start_time =>
      match timestamp end_dt with
      | inl e => inl e
      | inr end_time => inr (start_time, end_time)
      end
  end.

Definition get_today_timestamps : exn + Z * Z :=
  timestamps (combine_min now) (combine_max now).

Definition get_yesterday_timestamps : exn + Z * Z :=
  match day_before now with
  | inl e => inl e
  | inr yesterday => timestamps (combine_min yesterday) (combine_max yesterday)
  end.

(** [parse_datetime]: the [ValueError] of [strptime] is replaced by one
    with the message of the program; on [None], [strptime] raises
    [TypeError], which is not caught. *)
Definition parse_datetime (dt_str : option string) : exn + datetime :=
  match dt_str with
  | None => inl TypeError
  | Some s =>
      match strptime_arg s with
      | Some t => inr t
      | None =>
          inl (ValueError ("Datetime '" ++ s ++ "' does not match format "
                             ++ DATETIME_FORMAT))
      end
  end.

Definition resolve_time_range (args : Namespace) : exn + Z * Z :=
  if ns_today args then get_today_timestamps
  else if ns_yesterday args then get_yesterday_timestamps
  else
    match parse_datetime (ns_start args) with
    | inl e => inl e
    | inr start_dt =>
        match parse_datetime (ns_end args) with
        | inl e => inl e
        | inr end_dt => timestamps start_dt end_dt
        end
    end.

(** The whole of [main]: the arguments, the time range with its
    [except ValueError], then the loop and the report over the messages
    of the journal. *)
Definition program (given : Namespace) : list Out * Ending :=
  match parse_arguments given with
  | inl e => ([], Usage e)
  | inr args =>
      match resolve_time_range args with
      | inl (ValueError msg) => ([Stderr ("Error: " ++ msg)], Exited 1)
      | inl e => ([], Uncaught e)
      | inr (start_time, end_time) =>
          match main (mkArgs (ns_geo_ip args))
                     (yield_journal_messages end_time
                        (journal (ns_user args) (ns_unit args) start_time))
          with
          | (o, inl e) => (o, Uncaught e)
          | (o, inr _) => (o, Returned)
          end
      end
  end.

End Startup.



Definition members_total {L : PyLib} (groups : list (list Connection)) : nat :=
  list_sum (map (@List.length Connection) groups).

(** The events that take part in the correlation. *)
Definition correlated {L : PyLib} (e : ConnectionEvent) : bool :=
  negb (ConnectionType_eqb (type e) UNKNOWN).

(** What the loop prints for a message. *)
Definition loop_output {L : PyLib} (msg : string) : list Out :=
  if skipped msg then [] else diagnostic msg.

(** The sum of a measure over the values of a dict. *)
Definition weight {K V : Type} (w : V -> nat) (d : list (K * V)) : nat :=
  list_sum (map w (dict_values d)).


(** The message of [parse_datetime]. *)
Definition no_match (s : string) : string :=
  "Datetime '" ++ s ++ "' does not match format %Y-%m-%dT%H:%M:%S".

(** The two ways in which [int] refuses a float. *)
Definition not_finite (e : exn) : Prop :=
  e = OverflowError \/ e = ValueError "cannot convert float NaN to integer".

(** A host on UTC, at noon of the first of March 2024.  Its journal
    holds the lines of the first scenario behind one earlier entry, an
    entry without a message between them, then an entry later than the
    window and one more behind it; [strptime_arg] accepts
    [YYYY-MM-DDTHH:MM:SS]. *)
Module RefHost.

(** Days from 1970-01-01 to a date of the proleptic Gregorian
    calendar. *)
Definition days_from_civil (y m d : Z) : Z :=
  let y' := if m <=? 2 then y - 1 else y in
  let era := y' / 400 in
  let yoe := y' - era * 400 in
  let mp := if 2 <? m then m - 3 else m + 9 in
  let doy := (153 * mp + 2) / 5 + d - 1 in
  let doe := yoe * 365 + yoe / 4 - yoe / 100 + doy in
  era * 146097 + doe - 719468.

(** On a host on UTC the conversion looks one day back for an earlier
    reading of the local time, and raises when that leaves year 1. *)
Definition timestamp (t : datetime) : exn + Z :=
  let days := days_from_civil (year t) (month t) (day t) in
  if days <? days_from_civil 1 1 2 then
    inl (ValueError "year 0 is out of range")
  else inr (days * 86400 + hour t * 3600 + minute t * 60 + second t).

Definition strptime_arg (s : string) : option datetime :=
  let sub := fun i n => substring i n s in
  if (String.length s =? 19)%nat
     && String.eqb (sub 4 1)%nat "-" && String.eqb (sub 7 1)%nat "-"
     && String.eqb (sub 10 1)%nat "T" && String.eqb (sub 13 1)%nat ":"
     && String.eqb (sub 16 1)%nat ":"
  then
    match Ref.digits (sub 0 4)%nat, Ref.digits (sub 5 2)%nat,
          Ref.digits (sub 8 2)%nat, Ref.digits (sub 11 2)%nat,
          Ref.digits (sub 14 2)%nat, Ref.digits (sub 17 2)%nat with
    | Some y, Some mo, Some d, Some h, Some mi, Some sec =>
        if Ref.between 1 y 9999 && Ref.between 1 mo 12
           && Ref.between 1 d (Ref.days_in_month y mo)
           && Ref.between 0 h 23 && Ref.between 0 mi 59
           && Ref.between 0 sec 59
        then Some (mkDatetime y mo d h mi sec 0 None)
        else None
    | _, _, _, _, _, _ => None
    end
  else None.

Definition noon : datetime := mkDatetime 2024 3 1 12 0 0 0 None.

Definition entries : Reader :=
  [mkEntry 1754042399 (Some "Started endlessh");
   mkEntry 1754042400 (Some Ref.accept_line);
   mkEntry 1754042402 None;
   mkEntry 1754042405 (Some Ref.close_line);
   mkEntry 1754042500 (Some Scenario.accept_line_2);
   mkEntry 1754042410 (Some Scenario.close_line_2)].

Definition host : PyHost :=
  Build_PyHost noon timestamp strptime_arg (fun _ _ _ => entries).

Definition explicit_window : Namespace :=
  mkNamespace "endlessh.service" false false
              (Some "2025-08-01T10:00:00") (Some "2025-08-01T10:00:10")
              false false.

Definition first_day : Namespace :=
  mkNamespace "endlessh.service" false false
              (Some "0001-01-01T00:00:00") (Some "2025-08-01T10:00:10")
              false false.

Definition bad_start : Namespace :=
  mkNamespace "endlessh.service" false false
              (Some "yesterday") (Some "2025-08-01T10:00:10") false false.

(** A line with an unknown keyword, and the [ACCEPT] line of the first
    scenario with another field 3 and fields behind field 5. *)
Definition unknown_line : string :=
  "2025-08-01T10:00:00.000000Z RESET host=1.2.3.4 n fd=5 x".
Definition wide_accept_line : string :=
  "2025-08-01T10:00:00.000000Z ACCEPT host=1.2.3.4 port=2222 fd=5 n=1 more".

Definition today_and_start : Namespace :=
  mkNamespace "endlessh.service" false false
              (Some "2025-08-01T10:00:00") None true false.

End RefHost.

(* ------------------------------------------------------------------ *)
(** ** Lemmas on the monad, lists and the dict                          *)
(* ------------------------------------------------------------------ *)

Lemma bind_inr {A B} (m : M A) (f : A -> M B) (o : list Out) (b : B) :
  bind m f = (o, inr b) ->
  exists o1 a o2, m = (o1, inr a) /\ f a = (o2, inr b) /\ o = (o1 ++ o2)%list.
Proof.
  unfold bind. destruct m as [o1 [e | a]]; [discriminate |].
  destruct (f a) as [o2 r] eqn:Hf. intros H. inversion H; subst.
  exists o1, a, o2. auto.
Qed.

Lemma bind_ret_l {A B} (a : A) (f : A -> M B) : bind (ret a) f = f a.
Proof. unfold bind, ret. destruct (f a). reflexivity. Qed.

Lemma bind_assoc {A B C} (m : M A) (f : A -> M B) (g : B -> M C) :
  bind (bind m f) g = bind m (fun a => bind (f a) g).
Proof.
  destruct m as [o [e | a]]; simpl; [reflexivity |].
  destruct (f a) as [o1 [e | b]]; simpl; [reflexivity |].
  destruct (g b) as [o2 r]. rewrite app_assoc. reflexivity.
Qed.

Lemma bind_ext {A B} (m : M A) (f g : A -> M B) :
  (forall a, f a = g a) -> bind m f = bind m g.
Proof.
  intros Hfg. destruct m as [o [e | a]]; simpl; [reflexivity |].
  rewrite Hfg. reflexivity.
Qed.

Lemma bind_lift_inr {A B} (a : A) (f : A -> M B) : bind (lift (inr a)) f = f a.
Proof. apply bind_ret_l. Qed.

Lemma bind_lift_inl {A B} (e : exn) (f : A -> M B) :
  bind (lift (inl e)) f = ([], inl e).
Proof. reflexivity. Qed.

Lemma last_item_app {A} (l : list A) (a : A) : last_item (l ++ [a]) = inr a.
Proof.
  induction l as [| b l IH]; [reflexivity |].
  simpl. destruct (l ++ [a])%list eqn:E; [destruct l; discriminate | exact IH].
Qed.

Lemma last_item_inr {A} (l : list A) (a : A) :
  last_item l = inr a -> exists l', l = (l' ++ [a])%list.
Proof.
  induction l as [| b l IH]; [discriminate |].
  destruct l as [| c l].
  - simpl. intros H. inversion H. exists []. reflexivity.
  - intros H. destruct (IH H) as [l' ->]. exists (b :: l'). reflexivity.
Qed.

Lemma nonempty_snoc {A} (l : list A) :
  l <> [] -> exists l' a, l = (l' ++ [a])%list.
Proof.
  intros H. destruct (exists_last H) as [l' [a ->]]. eauto.
Qed.

Section DictFacts.
Context {K V : Type} (eqb : K -> K -> bool).
Hypothesis eqb_eq : forall a b, eqb a b = true <-> a = b.

Lemma eqb_refl (k : K) : eqb k k = true.
Proof. apply eqb_eq. reflexivity. Qed.

Lemma eqb_neq (a b : K) : a <> b -> eqb a b = false.
Proof.
  intros H. destruct (eqb a b) eqn:E; [| reflexivity].
  apply eqb_eq in E. contradiction.
Qed.

Lemma dict_get_set_same (k : K) (v : V) (d : list (K * V)) :
  dict_get eqb k (dict_set eqb k v d) = Some v.
Proof.
  induction d as [| [k' v'] d IH]; simpl.
  - rewrite eqb_refl. reflexivity.
  - destruct (eqb k' k) eqn:E; simpl; rewrite E; auto.
Qed.

Lemma dict_get_set_other (k k' : K) (v : V) (d : list (K * V)) :
  k <> k' -> dict_get eqb k' (dict_set eqb k v d) = dict_get eqb k' d.
Proof.
  intros Hne. induction d as [| [k0 v0] d IH]; simpl.
  - rewrite eqb_neq; auto.
  - destruct (eqb k0 k) eqn:E; simpl.
    + apply eqb_eq in E. subst k0. rewrite eqb_neq; auto.
    + destruct (eqb k0 k'); auto.
Qed.

Lemma dict_get_remove_same (k : K) (d : list (K * V)) :
  dict_get eqb k (dict_remove eqb k d) = None.
Proof.
  induction d as [| [k0 v0] d IH]; simpl; [reflexivity |].
  destruct (eqb k0 k) eqn:E; simpl; [exact IH | rewrite E; exact IH].
Qed.

Lemma dict_get_remove_other (k k' : K) (d : list (K * V)) :
  k <> k' -> dict_get eqb k' (dict_remove eqb k d) = dict_get eqb k' d.
Proof.
  intros Hne. induction d as [| [k0 v0] d IH]; simpl; [reflexivity |].
  destruct (eqb k0 k) eqn:E; simpl.
  - apply eqb_eq in E. subst k0. rewrite eqb_neq; auto.
  - destruct (eqb k0 k'); auto.
Qed.

Lemma dict_remove_set (k : K) (v : V) (d : list (K * V)) :
  dict_remove eqb k (dict_set eqb k v d) = dict_remove eqb k d.
Proof.
  induction d as [| [k0 v0] d IH]; simpl.
  - rewrite eqb_refl. reflexivity.
  - destruct (eqb k0 k) eqn:E; simpl; rewrite E; simpl; [| rewrite IH];
      reflexivity.
Qed.

Lemma dict_get_In (k : K) (v : V) (d : list (K * V)) :
  dict_get eqb k d = Some v -> In (k, v) d.
Proof.
  induction d as [| [k0 v0] d IH]; simpl; [discriminate |].
  destruct (eqb k0 k) eqn:E.
  - apply eqb_eq in E. intros H. inversion H. subst. auto.
  - auto.
Qed.

Lemma dict_get_None_keys (k : K) (d : list (K * V)) :
  dict_get eqb k d = None -> ~ In k (dict_keys d).
Proof.
  induction d as [| [k0 v0] d IH]; simpl; [auto |].
  destruct (eqb k0 k) eqn:E; [discriminate |].
  intros H [H1 | H1]; [| exact (IH H H1)].
  subst k0. rewrite eqb_refl in E. discriminate.
Qed.

Lemma In_dict_get (k : K) (v : V) (d : list (K * V)) :
  NoDup (dict_keys d) -> In (k, v) d -> dict_get eqb k d = Some v.
Proof.
  induction d as [| [k0 v0] d IH]; simpl; [contradiction |].
  intros Hnd [H | H].
  - inversion H. subst. rewrite eqb_refl. reflexivity.
  - inversion Hnd as [| ? ? Hnot Hnd']. subst.
    destruct (eqb k0 k) eqn:E; [| auto].
    apply eqb_eq in E. subst k0. exfalso. apply Hnot.
    change (In (fst (k, v)) (map fst d)). apply in_map. exact H.
Qed.

Lemma dict_get_keys (k : K) (v : V) (d : list (K * V)) :
  dict_get eqb k d = Some v -> In k (dict_keys d).
Proof.
  intros H. apply dict_get_In in H.
  change (In (fst (k, v)) (map fst d)). apply in_map. exact H.
Qed.

Lemma In_dict_set (k k0 : K) (v v0 : V) (d : list (K * V)) :
  In (k, v) (dict_set eqb k0 v0 d) -> (k = k0 /\ v = v0) \/ In (k, v) d.
Proof.
  induction d as [| [k1 v1] d IH]; simpl.
  - intros [H | []]. inversion H. auto.
  - destruct (eqb k1 k0) eqn:E; simpl.
    + apply eqb_eq in E. subst k1. intros [H | H]; [inversion H |]; auto.
    + intros [H | H]; [auto |]. destruct (IH H); auto.
Qed.

Lemma dict_keys_set (k : K) (v : V) (d : list (K * V)) :
  dict_keys (dict_set eqb k v d)
  = match dict_get eqb k d with
    | Some _ => dict_keys d
    | None => (dict_keys d ++ [k])%list
    end.
Proof.
  unfold dict_keys.
  induction d as [| [k1 v1] d IH]; simpl; [reflexivity |].
  destruct (eqb k1 k) eqn:E; simpl; [reflexivity |].
  rewrite IH. destruct (dict_get eqb k d); reflexivity.
Qed.

Lemma NoDup_dict_set (k : K) (v : V) (d : list (K * V)) :
  NoDup (dict_keys d) -> NoDup (dict_keys (dict_set eqb k v d)).
Proof.
  intros Hnd. rewrite dict_keys_set.
  destruct (dict_get eqb k d) eqn:E; [exact Hnd |].
  apply dict_get_None_keys in E.
  apply NoDup_rev in Hnd. rewrite <- (rev_involutive (_ ++ _)%list).
  apply NoDup_rev. rewrite rev_app_distr. simpl. constructor; [| exact Hnd].
  rewrite <- in_rev. exact E.
Qed.

Lemma In_dict_remove (k k0 : K) (v : V) (d : list (K * V)) :
  In (k, v) (dict_remove eqb k0 d) <-> In (k, v) d /\ k <> k0.
Proof.
  unfold dict_remove. rewrite filter_In. simpl. split.
  - intros [H1 H2]. split; [exact H1 |]. intros ->.
    rewrite eqb_refl in H2. discriminate.
  - intros [H1 H2]. split; [exact H1 |]. rewrite eqb_neq; auto.
Qed.

Lemma NoDup_dict_remove (k : K) (d : list (K * V)) :
  NoDup (dict_keys d) -> NoDup (dict_keys (dict_remove eqb k d)).
Proof.
  induction d as [| [k1 v1] d IH]; simpl; [auto |].
  intros Hnd. inversion Hnd as [| ? ? Hnot Hnd']. subst.
  destruct (eqb k1 k); simpl; [auto |].
  constructor; [| auto].
  intros Hin. apply Hnot. unfold dict_keys in Hin.
  apply in_map_iff in Hin. destruct Hin as [[k2 v2] [Hk Hin]].
  simpl in Hk. subst k2. unfold dict_remove in Hin.
  apply filter_In in Hin. destruct Hin as [Hin _].
  change (In (fst (k1, v2)) (map fst d)). apply in_map. exact Hin.
Qed.

End DictFacts.

(* ------------------------------------------------------------------ *)
(** ** Invariants of the correlation loop                               *)
(* ------------------------------------------------------------------ *)

Section Correlator.
Context {L : PyLib}.

Lemma key_eqb_eq (a b : Key) : key_eqb a b = true <-> a = b.
Proof.
  destruct a as [a1 a2], b as [b1 b2]. unfold key_eqb. simpl.
  rewrite andb_true_iff, ip_eqb_eq, Z.eqb_eq. split.
  - intros [-> ->]. reflexivity.
  - intros H. inversion H. auto.
Qed.

Lemma bind_ret_r {A} (m : M A) : bind m ret = m.
Proof.
  destruct m as [o [e | a]]; simpl; [reflexivity |].
  rewrite app_nil_r. reflexivity.
Qed.

Lemma add_event_match (c : Connection) (l : list ConnectionEvent)
      (a e : ConnectionEvent) :
  events c = (l ++ [a])%list -> ip a = ip e -> fd a = fd e ->
  add_event c e = inr (mkConnection (events c ++ [e])%list).
Proof.
  intros Hc Hip Hfd. unfold add_event. rewrite Hc.
  destruct (l ++ [a])%list eqn:E; [destruct l; discriminate |].
  rewrite <- E, last_item_app, Hip, Hfd.
  rewrite (proj2 (ip_eqb_eq _ _) eq_refl), Z.eqb_refl. reflexivity.
Qed.

Lemma add_event_mismatch (c : Connection) (l : list ConnectionEvent)
      (a e : ConnectionEvent) :
  events c = (l ++ [a])%list -> ip a <> ip e \/ fd a <> fd e ->
  exists msg, add_event c e = inl (ValueError msg).
Proof.
  intros Hc Hne. unfold add_event. rewrite Hc.
  destruct (l ++ [a])%list eqn:E; [destruct l; discriminate |].
  rewrite <- E, last_item_app.
  destruct (ip_eqb (ip a) (ip e)) eqn:Hip; simpl; [| eauto].
  apply ip_eqb_eq in Hip.
  destruct (fd a =? fd e) eqn:Hfd; simpl; [| eauto].
  apply Z.eqb_eq in Hfd. destruct Hne; contradiction.
Qed.

Lemma add_event_open (k : Key) (c : Connection) (e : ConnectionEvent) :
  open_ok k c -> conn e = k ->
  add_event c e = inr (mkConnection (events c ++ [e])%list).
Proof.
  intros [Hne Hall] Hk.
  destruct (nonempty_snoc _ Hne) as [l [a Hc]].
  rewrite Hc in Hall. apply Forall_app in Hall. destruct Hall as [_ Ha].
  inversion Ha as [| ? ? [Hka _] _]. subst.
  unfold conn in Hka. inversion Hka.
  eapply add_event_match; eauto.
Qed.

(** The three cases of the loop body. *)
Lemma process_event_unknown (st : State) (e : ConnectionEvent) :
  type e = UNKNOWN -> process_event st e = ([], inr st).
Proof. intros H. unfold process_event. rewrite H. reflexivity. Qed.

Lemma process_event_accept (st : State) (e : ConnectionEvent) :
  type e = ACCEPT -> process_event st e = accept_step st e.
Proof.
  intros H. unfold process_event. rewrite H. simpl. apply bind_ret_r.
Qed.

Lemma process_event_close (st : State) (e : ConnectionEvent) :
  type e = CLOSE -> process_event st e = close_step st e.
Proof.
  intros H. unfold process_event. rewrite H. simpl. apply bind_ret_l.
Qed.

Lemma accept_step_new (st : State) (e : ConnectionEvent) :
  dict_get key_eqb (conn e) (open_connections st) = None ->
  accept_step st e
  = ([], inr (mkState (closed_connections st)
                (dict_set key_eqb (conn e) (mkConnection [e])
                          (open_connections st)))).
Proof. intros H. unfold accept_step. rewrite H. reflexivity. Qed.

Lemma accept_step_again (st : State) (e : ConnectionEvent) (c : Connection) :
  Inv st ->
  dict_get key_eqb (conn e) (open_connections st) = Some c ->
  accept_step st e
  = ([], inr (mkState (closed_connections st)
                (dict_set key_eqb (conn e)
                          (mkConnection (events c ++ [e])%list)
                          (open_connections st)))).
Proof.
  intros HI H. unfold accept_step. rewrite H. simpl.
  rewrite (add_event_open (conn e) c e); [reflexivity | | reflexivity].
  apply (inv_open st HI). eapply dict_get_In; [apply key_eqb_eq | exact H].
Qed.

(** A [CLOSE] whose key is not open: the subscript raises. *)
Lemma close_step_unmatched (st : State) (e : ConnectionEvent) :
  dict_get key_eqb (conn e) (open_connections st) = None ->
  close_step st e = ([], inl KeyError).
Proof.
  intros H. unfold close_step, dict_getitem. rewrite H. reflexivity.
Qed.

Lemma close_step_matched (st : State) (e : ConnectionEvent) (c : Connection) :
  Inv st ->
  dict_get key_eqb (conn e) (open_connections st) = Some c ->
  close_step st e
  = ([], inr (mkState
                (closed_connections st
                   ++ [mkConnection (events c ++ [e])%list])%list
                (dict_remove key_eqb (conn e) (open_connections st)))).
Proof.
  intros HI H. unfold close_step, dict_getitem. rewrite H. simpl.
  rewrite (add_event_open (conn e) c e); [| | reflexivity].
  - simpl. unfold dict_delitem.
    rewrite (dict_get_set_same key_eqb key_eqb_eq). simpl.
    rewrite (dict_remove_set key_eqb key_eqb_eq). reflexivity.
  - apply (inv_open st HI). eapply dict_get_In; [apply key_eqb_eq | exact H].
Qed.

Lemma Inv_init : Inv init.
Proof.
  split; simpl; [constructor | contradiction | contradiction].
Qed.

Lemma Inv_accept_new (st : State) (e : ConnectionEvent) :
  Inv st -> type e = ACCEPT ->
  Inv (mkState (closed_connections st)
         (dict_set key_eqb (conn e) (mkConnection [e]) (open_connections st))).
Proof.
  intros [H1 H2 H3] Ht. split; simpl; [| | exact H3].
  - apply NoDup_dict_set; [apply key_eqb_eq | exact H1].
  - intros k c Hin. apply In_dict_set in Hin; [| apply key_eqb_eq].
    destruct Hin as [[-> ->] | Hin]; [| auto].
    split; simpl; [discriminate | repeat constructor; exact Ht].
Qed.

Lemma Inv_accept_again (st : State) (e : ConnectionEvent) (c : Connection) :
  Inv st -> type e = ACCEPT ->
  dict_get key_eqb (conn e) (open_connections st) = Some c ->
  Inv (mkState (closed_connections st)
         (dict_set key_eqb (conn e) (mkConnection (events c ++ [e])%list)
                   (open_connections st))).
Proof.
  intros [H1 H2 H3] Ht Hget. split; simpl; [| | exact H3].
  - apply NoDup_dict_set; [apply key_eqb_eq | exact H1].
  - intros k c' Hin. apply In_dict_set in Hin; [| apply key_eqb_eq].
    destruct Hin as [[-> ->] | Hin]; [| auto].
    apply (dict_get_In key_eqb key_eqb_eq) in Hget.
    destruct (H2 _ _ Hget) as [Hne Hall].
    split; simpl.
    + destruct (events c); [contradiction | discriminate].
    + apply Forall_app. split; [exact Hall | repeat constructor; exact Ht].
Qed.

Lemma Inv_close (st : State) (e : ConnectionEvent) (c : Connection) :
  Inv st -> type e = CLOSE ->
  dict_get key_eqb (conn e) (open_connections st) = Some c ->
  Inv (mkState
         (closed_connections st ++ [mkConnection (events c ++ [e])%list])%list
         (dict_remove key_eqb (conn e) (open_connections st))).
Proof.
  intros [H1 H2 H3] Ht Hget. split; simpl.
  - apply NoDup_dict_remove. exact H1.
  - intros k c' Hin. apply (In_dict_remove key_eqb key_eqb_eq) in Hin.
    destruct Hin as [Hin _]. auto.
  - intros c' Hin. apply in_app_or in Hin. destruct Hin as [Hin | [<- | []]].
    + auto.
    + apply (dict_get_In key_eqb key_eqb_eq) in Hget.
      destruct (H2 _ _ Hget) as [Hne Hall].
      exists (events c), e. simpl. repeat split; auto.
Qed.

(** Under the invariant an event either raises [KeyError] (a [CLOSE] of
    a key that is not open) or steps to a state that satisfies the
    invariant again, printing nothing. *)
Lemma process_event_cases (st : State) (e : ConnectionEvent) :
  Inv st ->
  (type e = CLOSE /\
   dict_get key_eqb (conn e) (open_connections st) = None /\
   process_event st e = ([], inl KeyError))
  \/ (exists st', process_event st e = ([], inr st') /\ Inv st').
Proof.
  intros HI. destruct (type e) eqn:Ht.
  - right. exists st. split; [apply process_event_unknown; exact Ht | exact HI].
  - right. rewrite process_event_accept by exact Ht.
    destruct (dict_get key_eqb (conn e) (open_connections st)) as [c |] eqn:Hg.
    + eexists. split; [apply accept_step_again; eauto |].
      apply Inv_accept_again; auto.
    + eexists. split; [apply accept_step_new; exact Hg |].
      apply Inv_accept_new; auto.
  - rewrite process_event_close by exact Ht.
    destruct (dict_get key_eqb (conn e) (open_connections st)) as [c |] eqn:Hg.
    + right. eexists. split; [apply close_step_matched; eauto |].
      apply Inv_close; auto.
    + left. repeat split; auto. apply close_step_unmatched. exact Hg.
Qed.

Lemma process_event_Inv (st st' : State) (e : ConnectionEvent) (o : list Out) :
  Inv st -> process_event st e = (o, inr st') -> Inv st' /\ o = [].
Proof.
  intros HI H. destruct (process_event_cases st e HI) as [[_ [_ Hk]] | [s [Hs HI']]].
  - rewrite Hk in H. discriminate.
  - rewrite Hs in H. inversion H. subst. auto.
Qed.

Lemma run_events_Inv (evs : list ConnectionEvent) (st st' : State)
      (o : list Out) :
  Inv st -> run_events st evs = (o, inr st') -> Inv st' /\ o = [].
Proof.
  revert st o. induction evs as [| e evs IH]; intros st o HI H; simpl in H.
  - inversion H. subst. auto.
  - apply bind_inr in H. destruct H as [o1 [s1 [o2 [H1 [H2 ->]]]]].
    destruct (process_event_Inv _ _ _ _ HI H1) as [HI1 ->].
    destruct (IH _ _ HI1 H2) as [HI2 ->]. auto.
Qed.

Lemma run_events_app (l1 l2 : list ConnectionEvent) (st st2 : State)
      (o : list Out) :
  run_events st (l1 ++ l2) = (o, inr st2) ->
  exists o1 st1 o2,
    run_events st l1 = (o1, inr st1) /\ run_events st1 l2 = (o2, inr st2).
Proof.
  revert st o. induction l1 as [| e l1 IH]; intros st o H; simpl in H.
  - exists [], st, o. auto.
  - apply bind_inr in H. destruct H as [oa [sa [ob [Ha [Hb ->]]]]].
    destruct (IH _ _ Hb) as [o1 [st1 [o2 [Hc Hd]]]].
    exists (oa ++ o1)%list, st1, o2. split; [| exact Hd].
    simpl. rewrite Ha. simpl. rewrite Hc. reflexivity.
Qed.

End Correlator.

(* ------------------------------------------------------------------ *)
(** ** The correlator: accept, close, key reuse                         *)
(* ------------------------------------------------------------------ *)

Section CorrelatorClaims.
Context {L : PyLib}.

(** A key stays registered, and its connection keeps the events it has,
    as long as no [CLOSE] of that key is processed. *)
Lemma open_persists (k : Key) (acc : ConnectionEvent)
      (mid : list ConnectionEvent) :
  (forall e, In e mid -> type e = CLOSE -> conn e <> k) ->
  forall (st st' : State) (c : Connection) (o : list Out),
    Inv st ->
    dict_get key_eqb k (open_connections st) = Some c ->
    In acc (events c) ->
    run_events st mid = (o, inr st') ->
    exists c', dict_get key_eqb k (open_connections st') = Some c' /\
               In acc (events c').
Proof.
  induction mid as [| e mid IH]; intros Hno st st' c o HI Hget Hin Hrun.
  - simpl in Hrun. inversion Hrun. subst. eauto.
  - simpl in Hrun. apply bind_inr in Hrun.
    destruct Hrun as [o1 [s1 [o2 [H1 [H2 _]]]]].
    assert (Hno' : forall e', In e' mid -> type e' = CLOSE -> conn e' <> k)
      by (intros e' He'; apply Hno; right; exact He').
    destruct (process_event_Inv _ _ _ _ HI H1) as [HI1 _].
    assert (Hk : exists c1, dict_get key_eqb k (open_connections s1) = Some c1
                            /\ In acc (events c1)).
    { destruct (type e) eqn:Ht.
      - rewrite process_event_unknown in H1 by exact Ht.
        inversion H1. subst. eauto.
      - rewrite process_event_accept in H1 by exact Ht.
        destruct (key_eqb (conn e) k) eqn:Hk.
        + apply key_eqb_eq in Hk. subst k.
          rewrite (accept_step_again st e c HI Hget) in H1.
          inversion H1. subst. simpl.
          rewrite (dict_get_set_same key_eqb key_eqb_eq).
          eexists. split; [reflexivity |]. simpl. apply in_or_app. auto.
        + assert (Hne : conn e <> k)
            by (intros Heq; apply key_eqb_eq in Heq; congruence).
          destruct (dict_get key_eqb (conn e) (open_connections st))
            as [c0 |] eqn:Hg.
          * rewrite (accept_step_again st e c0 HI Hg) in H1.
            inversion H1. subst. simpl.
            rewrite (dict_get_set_other key_eqb key_eqb_eq) by exact Hne.
            eauto.
          * rewrite (accept_step_new st e Hg) in H1.
            inversion H1. subst. simpl.
            rewrite (dict_get_set_other key_eqb key_eqb_eq) by exact Hne.
            eauto.
      - assert (Hne : conn e <> k) by (apply Hno; [left; reflexivity | exact Ht]).
        rewrite process_event_close in H1 by exact Ht.
        destruct (dict_get key_eqb (conn e) (open_connections st))
          as [c0 |] eqn:Hg.
        + rewrite (close_step_matched st e c0 HI Hg) in H1.
          inversion H1. subst. simpl.
          rewrite (dict_get_remove_other key_eqb key_eqb_eq) by exact Hne.
          eauto.
        + rewrite (close_step_unmatched st e Hg) in H1. discriminate. }
    destruct Hk as [c1 [Hg1 Hin1]].
    exact (IH Hno' s1 st' c1 o2 HI1 Hg1 Hin1 H2).
Qed.

(** After an [ACCEPT] the key is registered with a connection that holds
    the event. *)
Lemma accept_registers (st st' : State) (acc : ConnectionEvent) (o : list Out) :
  Inv st -> type acc = ACCEPT ->
  process_event st acc = (o, inr st') ->
  exists c, dict_get key_eqb (conn acc) (open_connections st') = Some c /\
            In acc (events c).
Proof.
  intros HI Ht H. rewrite process_event_accept in H by exact Ht.
  destruct (dict_get key_eqb (conn acc) (open_connections st)) as [c0 |] eqn:Hg.
  - rewrite (accept_step_again st acc c0 HI Hg) in H. inversion H. subst. simpl.
    rewrite (dict_get_set_same key_eqb key_eqb_eq).
    eexists. split; [reflexivity |]. simpl. apply in_or_app. simpl. auto.
  - rewrite (accept_step_new st acc Hg) in H. inversion H. subst. simpl.
    rewrite (dict_get_set_same key_eqb key_eqb_eq).
    eexists. split; [reflexivity |]. simpl. auto.
Qed.

(** The key of an [ACCEPT] is open at the end of every run in which no
    later [CLOSE] has that key. *)
Lemma accept_open_at_end (pre post : list ConnectionEvent)
      (acc : ConnectionEvent) (st : State) (o : list Out) :
  type acc = ACCEPT ->
  (forall e, In e post -> type e = CLOSE -> conn e <> conn acc) ->
  run_events init (pre ++ acc :: post) = (o, inr st) ->
  Inv st /\
  exists c, dict_get key_eqb (conn acc) (open_connections st) = Some c /\
            In acc (events c).
Proof.
  intros Ht Hno Hrun.
  destruct (run_events_Inv _ _ _ _ Inv_init Hrun) as [HI _].
  split; [exact HI |].
  apply run_events_app in Hrun. destruct Hrun as [o1 [s0 [o2 [Hpre Hrest]]]].
  destruct (run_events_Inv _ _ _ _ Inv_init Hpre) as [HI0 _].
  simpl in Hrest. apply bind_inr in Hrest.
  destruct Hrest as [oa [sa [ob [Ha [Hb _]]]]].
  destruct (process_event_Inv _ _ _ _ HI0 Ha) as [HIa _].
  destruct (accept_registers _ _ _ _ HI0 Ht Ha) as [ca [Hga Hina]].
  exact (open_persists (conn acc) acc post Hno sa st ca ob HIa Hga Hina Hb).
Qed.

(** C1 (what the code does): a [CLOSE] whose key has no open connection
    makes the subscript [open_connections[event.conn()]] raise
    [KeyError]; the run aborts there, prints no diagnostic and processes
    none of the remaining events. *)
Theorem unmatched_close_raises_KeyError (st : State) (e : ConnectionEvent)
        (rest : list ConnectionEvent) :
  type e = CLOSE ->
  dict_get key_eqb (conn e) (open_connections st) = None ->
  run_events st (e :: rest) = ([], inl KeyError).
Proof.
  intros Ht Hg. simpl.
  rewrite process_event_close by exact Ht.
  rewrite (close_step_unmatched st e Hg). reflexivity.
Qed.

(** The diagnostic of the loop is unreachable: whatever the state and
    the event, the body of the loop writes nothing to standard error. *)
Lemma leftover_diagnostic_unreachable (st : State) (e : ConnectionEvent)
      (line : string) :
  ~ In (Stderr line) (output (process_event st e)).
Proof.
  unfold process_event, accept_step, close_step, dict_getitem, dict_delitem.
  destruct (type e); simpl.
  - auto.
  - destruct (dict_get key_eqb (conn e) (open_connections st)); simpl; auto.
    destruct (add_event c e); simpl; auto.
  - destruct (dict_get key_eqb (conn e) (open_connections st)); simpl; auto.
    destruct (add_event c e); simpl; auto.
    rewrite (dict_get_set_same key_eqb key_eqb_eq). simpl. auto.
Qed.

(** X19: in a run that reaches it, an [ACCEPT], later events among which
    no [CLOSE] has its key, then a [CLOSE] of that key.  The [CLOSE]
    appends exactly one connection to the closed ones; it holds the
    [ACCEPT], ends with the [CLOSE] and has the duration of the [CLOSE];
    the key leaves the open mapping at once, and a later [ACCEPT] of the
    same key registers a fresh connection of that single event. *)
Theorem accept_then_close (pre mid : list ConnectionEvent)
        (acc cls : ConnectionEvent) (st1 : State) (o : list Out) :
  type acc = ACCEPT -> type cls = CLOSE -> conn cls = conn acc ->
  (forall e, In e mid -> type e = CLOSE -> conn e <> conn acc) ->
  run_events init (pre ++ acc :: mid) = (o, inr st1) ->
  exists (c : Connection) (es : list ConnectionEvent) (st2 : State),
    process_event st1 cls = ([], inr st2) /\
    closed_connections st2 = (closed_connections st1 ++ [c])%list /\
    events c = (es ++ [cls])%list /\ In acc es /\
    get_duration c = inr (duration cls) /\
    dict_get key_eqb (conn acc) (open_connections st2) = None /\
    forall again : ConnectionEvent,
      type again = ACCEPT -> conn again = conn acc ->
      exists st3,
        process_event st2 again = ([], inr st3) /\
        closed_connections st3 = closed_connections st2 /\
        dict_get key_eqb (conn acc) (open_connections st3)
        = Some (mkConnection [again]).
Proof.
  intros Hta Htc Hkey Hno Hrun.
  destruct (accept_open_at_end pre mid acc st1 o Hta Hno Hrun)
    as [HI1 [c1 [Hg1 Hin1]]].
  rewrite <- Hkey in Hg1.
  exists (mkConnection (events c1 ++ [cls])%list), (events c1).
  eexists. split; [| split; [| split; [| split; [| split; [| split]]]]].
  - rewrite process_event_close by exact Htc.
    apply (close_step_matched st1 cls c1 HI1 Hg1).
  - reflexivity.
  - reflexivity.
  - exact Hin1.
  - unfold get_duration. simpl. rewrite last_item_app. reflexivity.
  - simpl. rewrite Hkey. apply (dict_get_remove_same key_eqb).
  - intros again Ht Hk. eexists. split; [| split].
    + rewrite process_event_accept by exact Ht.
      apply accept_step_new. simpl. rewrite Hk, Hkey.
      apply (dict_get_remove_same key_eqb).
    + reflexivity.
    + simpl. rewrite Hk. apply (dict_get_set_same key_eqb key_eqb_eq).
Qed.

Lemma run_events_append (l1 l2 : list ConnectionEvent) (st : State) :
  run_events st (l1 ++ l2)
  = bind (run_events st l1) (fun st1 => run_events st1 l2).
Proof.
  revert st. induction l1 as [| e l1 IH]; intros st.
  - cbn [app run_events]. rewrite bind_ret_l. reflexivity.
  - cbn [app run_events]. rewrite bind_assoc. apply bind_ext.
    intros st'. apply IH.
Qed.

(** C2 (what the code does): a [CLOSE] whose key is not open, anywhere
    before the pair, ends the run in [KeyError]: the [ACCEPT] and the
    [CLOSE] of its key that follow are not processed, and no closed
    connection comes out of the run. *)
Theorem accept_then_close_lost_after_unmatched_close
        (pre mid rest : list ConnectionEvent)
        (other acc cls : ConnectionEvent) (st : State) :
  run_events init pre = ([], inr st) ->
  type other = CLOSE ->
  dict_get key_eqb (conn other) (open_connections st) = None ->
  type acc = ACCEPT -> type cls = CLOSE -> conn cls = conn acc ->
  (forall e, In e mid -> type e = CLOSE -> conn e <> conn acc) ->
  run_events init (pre ++ other :: acc :: mid ++ cls :: rest)
  = ([], inl KeyError).
Proof.
  intros Hpre Ht Hg _ _ _ _.
  rewrite run_events_append, Hpre.
  change ([], inr st) with (ret st). rewrite bind_ret_l.
  simpl. rewrite process_event_close by exact Ht.
  rewrite (close_step_unmatched st other Hg). reflexivity.
Qed.

(** C6: a connection whose events share the address and descriptor of
    its first event refuses an event that differs in either, by raising
    [ValueError], and the loop of [main] lets that exception through; it
    takes an event that agrees in both, which goes to the end of its
    events, and the shared address and descriptor still hold. *)
Theorem add_event_integrity (c : Connection) (first : ConnectionEvent)
        (rest : list ConnectionEvent) (e : ConnectionEvent) :
  events c = first :: rest -> conn_inv c ->
  (ip e <> ip first \/ fd e <> fd first ->
   (exists msg, add_event c e = inl (ValueError msg)) /\
   forall st, dict_get key_eqb (conn e) (open_connections st) = Some c ->
              type e <> UNKNOWN ->
              exists msg, process_event st e = ([], inl (ValueError msg)))
  /\
  (ip e = ip first /\ fd e = fd first ->
   exists c', add_event c e = inr c' /\
              events c' = (events c ++ [e])%list /\ conn_inv c').
Proof.
  intros Hc Hinv.
  assert (Hne : events c <> []) by (rewrite Hc; discriminate).
  destruct (nonempty_snoc _ Hne) as [l [a Hl]].
  assert (Ha : ip a = ip first /\ fd a = fd first).
  { unfold conn_inv in Hinv. rewrite Hc in Hinv. rewrite <- Hc, Hl in Hinv.
    apply Forall_app in Hinv. destruct Hinv as [_ Hinv].
    inversion Hinv. assumption. }
  destruct Ha as [Hip Hfd]. split.
  - intros Hdiff.
    assert (Hraise : exists msg, add_event c e = inl (ValueError msg)).
    { apply (add_event_mismatch c l a e Hl).
      rewrite Hip, Hfd. destruct Hdiff; [left | right]; congruence. }
    split; [exact Hraise |].
    intros st Hg Hty. destruct Hraise as [msg Hmsg]. exists msg.
    unfold process_event. destruct (type e); [contradiction | |]; simpl.
    + unfold accept_step. rewrite Hg. simpl. rewrite Hmsg. reflexivity.
    + unfold close_step, dict_getitem. rewrite Hg. simpl. rewrite Hmsg.
      reflexivity.
  - intros [Heip Hefd].
    exists (mkConnection (events c ++ [e])%list). split; [| split].
    + apply (add_event_match c l a e Hl); congruence.
    + reflexivity.
    + unfold conn_inv in *. simpl. rewrite Hc in *. simpl.
      change (first :: (rest ++ [e])%list) with ((first :: rest) ++ [e])%list.
      apply Forall_app. split; [exact Hinv |]. repeat constructor; assumption.
Qed.

End CorrelatorClaims.

(* ------------------------------------------------------------------ *)
(** ** Sorting: [sorted] and [reversed]                                  *)
(* ------------------------------------------------------------------ *)

Section Sorting.
Context {A : Type} (key : A -> nat).

Lemma insert_by_perm (a : A) (l : list A) :
  Permutation (insert_by key a l) (a :: l).
Proof.
  induction l as [| b l IH]; simpl; [reflexivity |].
  destruct (key a <=? key b)%nat; [reflexivity |].
  rewrite IH. apply perm_swap.
Qed.

Lemma sorted_perm (l : list A) : Permutation (sorted key l) l.
Proof.
  induction l as [| a l IH]; simpl; [reflexivity |].
  rewrite insert_by_perm. constructor. exact IH.
Qed.

Lemma insert_by_sorted (a : A) (l : list A) :
  StronglySorted (fun x y => (key x <= key y)%nat) l ->
  StronglySorted (fun x y => (key x <= key y)%nat) (insert_by key a l).
Proof.
  induction 1 as [| b l Hs IH Hb]; simpl.
  - repeat constructor.
  - destruct (key a <=? key b)%nat eqn:E.
    + apply Nat.leb_le in E. constructor; [constructor; assumption |].
      constructor; [exact E |].
      eapply Forall_impl; [| exact Hb]. simpl. intros; lia.
    + apply Nat.leb_gt in E. constructor; [exact IH |].
      eapply Permutation_Forall; [symmetry; apply insert_by_perm |].
      constructor; [lia | exact Hb].
Qed.

Lemma sorted_ascending (l : list A) :
  StronglySorted (fun x y => (key x <= key y)%nat) (sorted key l).
Proof.
  induction l as [| a l IH]; simpl; [constructor |].
  apply insert_by_sorted. exact IH.
Qed.

Lemma filter_insert_by (n : nat) (a : A) (l : list A) :
  filter (key_is key n) (insert_by key a l)
  = if key_is key n a then a :: filter (key_is key n) l else filter (key_is key n) l.
Proof.
  induction l as [| b l IH]; simpl; [reflexivity |].
  destruct (key a <=? key b)%nat eqn:E; simpl; [reflexivity |].
  apply Nat.leb_gt in E. rewrite IH. unfold key_is in *.
  destruct (key a =? n)%nat eqn:Ea; [| reflexivity].
  apply Nat.eqb_eq in Ea.
  destruct (key b =? n)%nat eqn:Eb; [| reflexivity].
  apply Nat.eqb_eq in Eb. lia.
Qed.

(** Stability: the elements of one key keep their order. *)
Lemma sorted_stable (n : nat) (l : list A) :
  filter (key_is key n) (sorted key l) = filter (key_is key n) l.
Proof.
  induction l as [| a l IH]; simpl; [reflexivity |].
  rewrite filter_insert_by, IH. reflexivity.
Qed.

Lemma StronglySorted_snoc (R : A -> A -> Prop) (l : list A) (a : A) :
  StronglySorted R l -> Forall (fun x => R x a) l ->
  StronglySorted R (l ++ [a]).
Proof.
  induction 1 as [| b l Hs IH Hb]; intros Hall; simpl.
  - repeat constructor.
  - inversion Hall; subst. constructor; [auto |].
    apply Forall_app. split; [exact Hb | repeat constructor; assumption].
Qed.

Lemma StronglySorted_rev (R : A -> A -> Prop) (l : list A) :
  StronglySorted R l -> StronglySorted (fun x y => R y x) (rev l).
Proof.
  induction 1 as [| b l Hs IH Hb]; simpl; [constructor |].
  apply StronglySorted_snoc; [exact IH |].
  apply Forall_rev. exact Hb.
Qed.

(** [reversed(sorted(l, key=key))]: a permutation of [l], descending in
    the key, the elements of one key in the reverse of their order. *)
Lemma reversed_sorted_spec (l : list A) :
  Permutation (reversed (sorted key l)) l /\
  StronglySorted (fun x y => (key y <= key x)%nat) (reversed (sorted key l)) /\
  forall n, filter (key_is key n) (reversed (sorted key l))
            = rev (filter (key_is key n) l).
Proof.
  unfold reversed. split; [| split].
  - rewrite <- Permutation_rev. apply sorted_perm.
  - apply (StronglySorted_rev (fun x y => (key x <= key y)%nat)).
    apply sorted_ascending.
  - intros n. rewrite filter_rev, sorted_stable. reflexivity.
Qed.

End Sorting.

(* ------------------------------------------------------------------ *)
(** ** Grouping by address                                               *)
(* ------------------------------------------------------------------ *)

Section Grouping.
Context {L : PyLib}.

Lemma ip_eqb_sym (a b : IPAddress) : ip_eqb a b = ip_eqb b a.
Proof.
  destruct (ip_eqb a b) eqn:E1, (ip_eqb b a) eqn:E2; try reflexivity.
  - apply ip_eqb_eq in E1. subst. rewrite (proj2 (ip_eqb_eq b b) eq_refl) in E2.
    discriminate.
  - apply ip_eqb_eq in E2. subst. rewrite (proj2 (ip_eqb_eq a a) eq_refl) in E1.
    discriminate.
Qed.

Lemma group_from_get (cs : list Connection) :
  forall acc r,
    group_from acc cs = inr r ->
    forall a,
      dict_get ip_eqb a r
      = match dict_get ip_eqb a acc with
        | Some l => Some (l ++ filter (has_ip a) cs)%list
        | None => match filter (has_ip a) cs with
                  | [] => None
                  | c :: l => Some (c :: l)
                  end
        end.
Proof.
  induction cs as [| c cs IH]; intros acc r H a; simpl in H.
  - inversion H. subst. simpl. destruct (dict_get ip_eqb a r); [| reflexivity].
    rewrite app_nil_r. reflexivity.
  - destruct (get_ip c) as [e | a0] eqn:Hip; [discriminate |].
    assert (Hh : has_ip a c = ip_eqb a0 a)
      by (unfold has_ip; rewrite Hip; reflexivity).
    cbn [filter]. rewrite Hh.
    assert (Hstep : forall v,
               group_from (dict_set ip_eqb a0 v acc) cs = inr r ->
               dict_get ip_eqb a r
               = match dict_get ip_eqb a (dict_set ip_eqb a0 v acc) with
                 | Some l => Some (l ++ filter (has_ip a) cs)%list
                 | None => match filter (has_ip a) cs with
                           | [] => None
                           | c :: l => Some (c :: l)
                           end
                 end) by (intros v Hv; apply IH; exact Hv).
    destruct (ip_eqb a0 a) eqn:Ea.
    + apply ip_eqb_eq in Ea. subst a0.
      destruct (dict_get ip_eqb a acc) as [l |] eqn:Hg;
        rewrite (Hstep _ H), (dict_get_set_same ip_eqb ip_eqb_eq).
      * rewrite <- app_assoc. reflexivity.
      * reflexivity.
    + assert (Hne : a0 <> a).
      { intros ->. rewrite (proj2 (ip_eqb_eq a a) eq_refl) in Ea. discriminate. }
      destruct (dict_get ip_eqb a0 acc) as [l |] eqn:Hg;
        rewrite (Hstep _ H);
        rewrite (dict_get_set_other ip_eqb ip_eqb_eq) by exact Hne;
        reflexivity.
Qed.

Lemma group_from_NoDup (cs : list Connection) :
  forall acc r,
    NoDup (dict_keys acc) -> group_from acc cs = inr r -> NoDup (dict_keys r).
Proof.
  induction cs as [| c cs IH]; intros acc r Hnd H; simpl in H.
  - inversion H. subst. exact Hnd.
  - destruct (get_ip c) as [e | a0]; [discriminate |].
    destruct (dict_get ip_eqb a0 acc);
      (eapply IH; [| exact H]; apply NoDup_dict_set;
       [apply ip_eqb_eq | exact Hnd]).
Qed.

Lemma filter_filter_and {A} (f g : A -> bool) (l : list A) :
  filter f (filter g l) = filter (fun x => g x && f x) l.
Proof.
  induction l as [| a l IH]; simpl; [reflexivity |].
  destruct (g a); simpl; [destruct (f a); rewrite IH |]; auto.
Qed.

Lemma dict_contains_set (a a0 : IPAddress) (v : list Connection)
      (acc : list (IPAddress * list Connection)) :
  dict_contains ip_eqb a (dict_set ip_eqb a0 v acc)
  = dict_contains ip_eqb a acc || ip_eqb a a0.
Proof.
  unfold dict_contains. destruct (ip_eqb a a0) eqn:E.
  - apply ip_eqb_eq in E. subst.
    rewrite (dict_get_set_same ip_eqb ip_eqb_eq). rewrite orb_true_r.
    reflexivity.
  - rewrite (dict_get_set_other ip_eqb ip_eqb_eq).
    + rewrite orb_false_r. reflexivity.
    + intros ->. rewrite (proj2 (ip_eqb_eq a a) eq_refl) in E. discriminate.
Qed.

(** The keys of the dict come in the order in which the addresses are
    first met. *)
Lemma group_from_keys (cs : list Connection) :
  forall ips acc r,
    Forall2 (fun c a => get_ip c = inr a) cs ips ->
    group_from acc cs = inr r ->
    dict_keys r
    = (dict_keys acc
         ++ filter (fun b => negb (dict_contains ip_eqb b acc))
                   (encounter ips))%list.
Proof.
  induction cs as [| c cs IH]; intros ips acc r Hips H; simpl in H.
  - inversion Hips. subst. inversion H. subst. simpl.
    rewrite app_nil_r. reflexivity.
  - inversion Hips as [| ? a0 ? ips' Hc Hrest]. subst.
    rewrite Hc in H. simpl.
    assert (Hstep : forall v,
               group_from (dict_set ip_eqb a0 v acc) cs = inr r ->
               dict_keys r
               = (dict_keys (dict_set ip_eqb a0 v acc)
                    ++ filter (fun b => negb (dict_contains ip_eqb b acc)
                                        && negb (ip_eqb b a0))
                              (encounter ips'))%list).
    { intros v Hv. rewrite (IH ips' _ r Hrest Hv). f_equal.
      apply filter_ext. intros b. rewrite dict_contains_set.
      apply negb_orb. }
    rewrite filter_filter_and.
    assert (Hsame : filter (fun x => negb (ip_eqb x a0)
                                     && negb (dict_contains ip_eqb x acc))
                           (encounter ips')
                    = filter (fun b => negb (dict_contains ip_eqb b acc)
                                       && negb (ip_eqb b a0))
                             (encounter ips'))
      by (apply filter_ext; intros b; apply andb_comm).
    rewrite Hsame.
    unfold dict_contains at 1.
    destruct (dict_get ip_eqb a0 acc) as [l |] eqn:Hg; simpl;
      rewrite (Hstep _ H), (dict_keys_set ip_eqb), Hg.
    + reflexivity.
    + rewrite <- app_assoc. reflexivity.
Qed.

Lemma group_from_total (cs : list Connection) :
  Forall (fun c => events c <> []) cs ->
  forall acc, exists r, group_from acc cs = inr r.
Proof.
  induction 1 as [| c cs Hc Hcs IH]; intros acc; simpl; [eauto |].
  unfold get_ip, getitem. destruct (events c) as [| e es]; [contradiction |].
  simpl. destruct (dict_get ip_eqb (ip e) acc); apply IH.
Qed.

Lemma group_ips (cs : list Connection) :
  forall acc r, group_from acc cs = inr r ->
                exists ips, Forall2 (fun c a => get_ip c = inr a) cs ips.
Proof.
  induction cs as [| c cs IH]; intros acc r H; simpl in H.
  - exists []. constructor.
  - destruct (get_ip c) as [e | a0] eqn:Hip; [discriminate |].
    destruct (dict_get ip_eqb a0 acc);
      destruct (IH _ _ H) as [ips Hips]; exists (a0 :: ips);
      constructor; assumption.
Qed.

(** The grouping is the partition of the closed connections by address:
    the keys are pairwise distinct and in encounter order, the group of
    an address holds exactly the connections of that address, in their
    order, and is not empty. *)
Lemma group_connections_spec (cs : list Connection)
      (grouped : list (IPAddress * list Connection)) :
  group_connections cs = inr grouped ->
  NoDup (dict_keys grouped) /\
  (forall ips, Forall2 (fun c a => get_ip c = inr a) cs ips ->
               dict_keys grouped = encounter ips) /\
  (forall a members, In (a, members) grouped ->
                     members = filter (has_ip a) cs /\ members <> []) /\
  (forall c a, In c cs -> get_ip c = inr a ->
               exists members, In (a, members) grouped /\ In c members).
Proof.
  unfold group_connections. intros H.
  assert (Hnd : NoDup (dict_keys grouped))
    by (eapply group_from_NoDup; [| exact H]; constructor).
  assert (Hget := group_from_get cs [] grouped H). simpl in Hget.
  split; [exact Hnd |]. split; [| split].
  - intros ips Hips. rewrite (group_from_keys cs ips [] grouped Hips H).
    assert (Hall : forall l : list IPAddress,
               filter (fun b => negb (dict_contains ip_eqb b
                                        (@nil (IPAddress * list Connection)))) l
               = l)
      by (induction l as [| a l IH]; [reflexivity |];
          cbn [filter dict_contains dict_get negb]; f_equal; exact IH).
    simpl. apply Hall.
  - intros a members Hin.
    apply (In_dict_get ip_eqb ip_eqb_eq) in Hin; [| exact Hnd].
    rewrite Hget in Hin. destruct (filter (has_ip a) cs); [discriminate |].
    inversion Hin. split; [reflexivity | discriminate].
  - intros c a Hin Hip.
    assert (Hf : In c (filter (has_ip a) cs)).
    { apply filter_In. split; [exact Hin |]. unfold has_ip. rewrite Hip.
      apply ip_eqb_eq. reflexivity. }
    specialize (Hget a). destruct (filter (has_ip a) cs) as [| c0 l] eqn:Hfl;
      [contradiction |].
    exists (c0 :: l). split; [| exact Hf].
    eapply dict_get_In; [apply ip_eqb_eq | exact Hget].
Qed.

(** C3 (amended): the groups of the report are the groups of the dict,
    ordered by non-increasing count; the dict holds them in the order
    in which their addresses are first met, and the groups of one count
    are reported in the reverse of that order. *)
Theorem groups_descending_ties_reversed (cs : list Connection)
        (ips : list IPAddress)
        (grouped : list (IPAddress * list Connection)) :
  Forall2 (fun c a => get_ip c = inr a) cs ips ->
  group_connections cs = inr grouped ->
  Permutation (ordered_groups grouped) (dict_values grouped) /\
  StronglySorted (fun g1 g2 => (List.length g2 <= List.length g1)%nat)
                 (ordered_groups grouped) /\
  dict_keys grouped = encounter ips /\
  forall n,
    filter (key_is (@List.length Connection) n) (ordered_groups grouped)
    = rev (filter (key_is (@List.length Connection) n) (dict_values grouped)).
Proof.
  intros Hips H.
  destruct (reversed_sorted_spec (@List.length Connection) (dict_values grouped))
    as [Hp [Hs Hf]].
  destruct (group_connections_spec cs grouped H) as [_ [Hk _]].
  unfold ordered_groups. auto.
Qed.

End Grouping.

(* ------------------------------------------------------------------ *)
(** ** The parser                                                        *)
(* ------------------------------------------------------------------ *)

Section Parser.
Context {L : PyLib}.

Lemma getitem_nth {A} (l : list A) (i : nat) (d : A) :
  (i < List.length l)%nat -> getitem l i = inr (nth i l d).
Proof.
  intros H. unfold getitem.
  rewrite (nth_error_nth' l d H). reflexivity.
Qed.

Lemma getitem_value_of (s : string) :
  getitem (str_split equals_sign s) 1
  = match value_of s with Some x => inr x | None => inl IndexError end.
Proof. reflexivity. Qed.

Lemma from_journal_skipped (msg : string) :
  skipped msg = true -> from_journal msg = ([], inr None).
Proof.
  unfold skipped, from_journal, field. intros H. cbv zeta.
  destruct (List.length (str_split space msg) <? 6)%nat eqn:Hlen;
    [reflexivity |].
  simpl in H. apply Nat.ltb_ge in Hlen.
  rewrite (getitem_nth _ 2 EmptyString) by lia.
  rewrite bind_lift_inr, H. reflexivity.
Qed.

(** [from_journal] on a line that is not skipped, one test after the
    other. *)
Lemma from_journal_parsed (msg : string) :
  skipped msg = false ->
  from_journal msg =
  match value_of (field 2 msg) with
  | None => ([], inl IndexError)
  | Some a =>
      match ip_address a with
      | None => ([], inl (ValueError "ip_address"))
      | Some a' =>
          match value_of (field 4 msg) with
          | None => ([], inl IndexError)
          | Some d =>
              match py_int d with
              | None => ([], inl (ValueError "int"))
              | Some n =>
                  if String.eqb (field 1 msg) "ACCEPT" then
                    finish msg [] ACCEPT a' n None
                  else if String.eqb (field 1 msg) "CLOSE" then
                    match value_of (field 5 msg) with
                    | None => ([], inl IndexError)
                    | Some x =>
                        match py_float x with
                        | None => ([], inl (ValueError "float"))
                        | Some du => finish msg [] CLOSE a' n (Some du)
                        end
                    end
                  else
                    finish msg
                      [Stdout ("Unmatched connection type " ++ field 1 msg)]
                      UNKNOWN a' n None
              end
          end
      end
  end.
Proof.
  unfold skipped. intros H. apply orb_false_elim in H. destruct H as [Hlen Hpre].
  apply Nat.ltb_ge in Hlen. apply negb_false_iff in Hpre.
  unfold from_journal, finish, field in *. cbv zeta. 
  destruct (List.length (str_split space msg) <? 6)%nat eqn:Hlt;
    [apply Nat.ltb_lt in Hlt; lia |].
  rewrite (getitem_nth _ 2 EmptyString) by lia.
  rewrite bind_lift_inr, Hpre. cbn [negb].
  rewrite getitem_value_of.
  destruct (value_of (nth 2 (str_split space msg) EmptyString)) as [a |];
    [| reflexivity].
  rewrite bind_lift_inr.
  destruct (ip_address a) as [a' |]; [| reflexivity].
  cbn [parsed]. rewrite bind_lift_inr.
  rewrite (getitem_nth _ 4 EmptyString) by lia. rewrite bind_lift_inr.
  rewrite getitem_value_of.
  destruct (value_of (nth 4 (str_split space msg) EmptyString)) as [d |];
    [| reflexivity].
  rewrite bind_lift_inr.
  destruct (py_int d) as [n |]; [| reflexivity].
  cbn [parsed]. rewrite bind_lift_inr.
  rewrite (getitem_nth _ 1 EmptyString) by lia. rewrite bind_lift_inr.
  destruct (String.eqb (nth 1 (str_split space msg) EmptyString) "ACCEPT").
  { rewrite bind_ret_l. rewrite (getitem_nth _ 0 EmptyString) by lia.
    rewrite bind_lift_inr.
    destruct (strptime (nth 0 (str_split space msg) EmptyString));
      reflexivity. }
  destruct (String.eqb (nth 1 (str_split space msg) EmptyString) "CLOSE").
  { rewrite (getitem_nth _ 5 EmptyString) by lia. rewrite bind_lift_inr.
    rewrite getitem_value_of.
    destruct (value_of (nth 5 (str_split space msg) EmptyString)) as [x |];
      [| reflexivity].
    rewrite bind_lift_inr.
    destruct (py_float x) as [du |]; [| reflexivity].
    cbn [parsed]. rewrite bind_lift_inr, bind_ret_l.
    rewrite (getitem_nth _ 0 EmptyString) by lia. rewrite bind_lift_inr.
    destruct (strptime (nth 0 (str_split space msg) EmptyString));
      reflexivity. }
  rewrite (getitem_nth _ 0 EmptyString) by lia.
  unfold print, bind, ret, lift, parsed. cbn [fst snd app].
  destruct (strptime (nth 0 (str_split space msg) EmptyString));
    reflexivity.
Qed.

End Parser.

Section ParserClaims.
Context {L : PyLib}.

Ltac parser_cases msg :=
  unfold diagnostic, finish, type_of_keyword, bad_address, bad_descriptor,
    bad_duration, bad_timestamp, raises, outcome, parse_value, event_wf in *;
  destruct (value_of (field 2 msg)) as [?a |] eqn:?Hv2;
  [ destruct (ip_address a) as [?a' |] eqn:?Hip;
    [ destruct (value_of (field 4 msg)) as [?d |] eqn:?Hv4;
      [ destruct (py_int d) as [?n |] eqn:?Hfd;
        [ destruct (String.eqb (field 1 msg) "ACCEPT") eqn:?Hacc;
          [ apply String.eqb_eq in Hacc
          | apply String.eqb_neq in Hacc;
            destruct (String.eqb (field 1 msg) "CLOSE") eqn:?Hcl;
            [ apply String.eqb_eq in Hcl;
              destruct (value_of (field 5 msg)) as [?x |] eqn:?Hv5;
              [ destruct (py_float x) as [?du |] eqn:?Hdu | ]
            | apply String.eqb_neq in Hcl ] ];
          try destruct (strptime (field 0 msg)) as [?t |] eqn:?Hts
        | ]
      | ]
    | ]
  | ]; simpl in *.

(** The parser keeps the promise [event_wf]. *)
Lemma from_journal_event_wf (msg : string) (o : list Out)
      (ev : ConnectionEvent) :
  from_journal msg = (o, inr (Some ev)) -> event_wf ev.
Proof.
  destruct (skipped msg) eqn:Hs.
  - rewrite (from_journal_skipped msg Hs). discriminate.
  - rewrite (from_journal_parsed msg Hs). intros H.
    parser_cases msg; try discriminate; inversion H; subst; simpl;
      split; intros; congruence.
Qed.

(** C7: an event that the parser returns has a duration exactly when
    its kind is [CLOSE]; on [ACCEPT] and [UNKNOWN] the duration is
    [None]. *)
Theorem parsed_duration_iff_close (msg : string) (o : list Out)
        (ev : ConnectionEvent) :
  from_journal msg = (o, inr (Some ev)) ->
  (duration ev <> None <-> type ev = CLOSE) /\
  (type ev = ACCEPT \/ type ev = UNKNOWN -> duration ev = None).
Proof.
  destruct (skipped msg) eqn:Hs.
  - rewrite (from_journal_skipped msg Hs). discriminate.
  - rewrite (from_journal_parsed msg Hs). intros H.
    parser_cases msg; try discriminate; inversion H; subst; simpl;
      (split; [split; intros; congruence | intros [? | ?]; congruence]).
Qed.

(** C5 (amended): a line is skipped without a word when it has fewer
    than six fields between single spaces or its field 2 does not begin
    with [host=]; otherwise the parser raises exactly when the address,
    the descriptor, the duration of a [CLOSE] or the timestamp does not
    parse; otherwise it returns the event of the parsed values, after
    the diagnostic of an unknown keyword if there is one. *)
Theorem parser_three_behaviours (msg : string) :
  (skipped msg = true -> from_journal msg = ([], inr None)) /\
  (skipped msg = false ->
   (raises (from_journal msg)
    <-> bad_address msg \/ bad_descriptor msg \/ bad_duration msg
        \/ bad_timestamp msg)) /\
  (skipped msg = false ->
   ~ (bad_address msg \/ bad_descriptor msg \/ bad_duration msg
      \/ bad_timestamp msg) ->
   exists ev,
     from_journal msg = (diagnostic msg, inr (Some ev)) /\
     type ev = type_of_keyword (field 1 msg) /\
     Some (ip ev) = parse_value ip_address (value_of (field 2 msg)) /\
     Some (fd ev) = parse_value py_int (value_of (field 4 msg)) /\
     duration ev
     = match type ev with
       | CLOSE => parse_value py_float (value_of (field 5 msg))
       | _ => None
       end /\
     Some (time ev)
     = option_map (fun t => replace_tzinfo t utc) (strptime (field 0 msg)) /\
     event_wf ev).
Proof.
  split; [apply from_journal_skipped |]. split.
  - intros Hs. rewrite (from_journal_parsed msg Hs).
    parser_cases msg; split;
      try (intros [e He]; discriminate He);
      try (intros _; eexists; reflexivity);
      try (intros; auto; fail);
      try (intros [Hb | [Hb | [[Hb1 Hb2] | Hb]]]; congruence).
  - intros Hs Hok. rewrite (from_journal_parsed msg Hs).
    parser_cases msg;
      try (exfalso; apply Hok; auto; fail);
      try (eexists; split; [reflexivity |]; simpl; repeat split; intros;
           congruence).
Qed.

End ParserClaims.

(* ------------------------------------------------------------------ *)
(** ** The loop over the journal and the report                          *)
(* ------------------------------------------------------------------ *)

Section Report.
Context {L : PyLib}.

Lemma closed_ok_nonempty (c : Connection) : closed_ok c -> events c <> [].
Proof.
  intros [es [e [H _]]]. rewrite H. destruct es; discriminate.
Qed.

Lemma process_event_timed (st st' : State) (e : ConnectionEvent)
      (o : list Out) :
  Inv st -> closed_timed st -> event_wf e ->
  process_event st e = (o, inr st') -> closed_timed st'.
Proof.
  intros HI Ht Hwf H. destruct (type e) eqn:Hty.
  - rewrite process_event_unknown in H by exact Hty. inversion H. subst. exact Ht.
  - rewrite process_event_accept in H by exact Hty.
    destruct (dict_get key_eqb (conn e) (open_connections st)) as [c |] eqn:Hg.
    + rewrite (accept_step_again st e c HI Hg) in H. inversion H. subst. exact Ht.
    + rewrite (accept_step_new st e Hg) in H. inversion H. subst. exact Ht.
  - rewrite process_event_close in H by exact Hty.
    destruct (dict_get key_eqb (conn e) (open_connections st)) as [c |] eqn:Hg.
    + rewrite (close_step_matched st e c HI Hg) in H. inversion H. subst.
      intros c' Hin. simpl in Hin. apply in_app_or in Hin.
      destruct Hin as [Hin | [<- | []]]; [auto |].
      unfold get_duration. simpl. rewrite last_item_app.
      destruct (duration e) as [x |] eqn:Hd; [eauto |].
      exfalso. apply (proj2 Hwf Hty). exact Hd.
    + rewrite (close_step_unmatched st e Hg) in H. discriminate.
Qed.

Lemma process_message_inv (st st' : State) (msg : string) (o : list Out) :
  Inv st -> closed_timed st ->
  process_message st msg = (o, inr st') -> Inv st' /\ closed_timed st'.
Proof.
  intros HI Ht H. unfold process_message in H. apply bind_inr in H.
  destruct H as [o1 [ev [o2 [Hp [Hs _]]]]].
  destruct ev as [e |].
  - split.
    + exact (proj1 (process_event_Inv _ _ _ _ HI Hs)).
    + apply (process_event_timed st st' e o2 HI Ht); [| exact Hs].
      exact (from_journal_event_wf msg o1 e Hp).
  - inversion Hs. subst. auto.
Qed.

(** Whatever the journal holds, a loop that ends leaves a state in
    which the invariant holds and every closed connection has a
    duration. *)
Lemma main_loop_inv (msgs : list string) :
  forall (st st' : State) (o : list Out),
    Inv st -> closed_timed st ->
    main_loop st msgs = (o, inr st') -> Inv st' /\ closed_timed st'.
Proof.
  induction msgs as [| msg msgs IH]; intros st st' o HI Ht H; simpl in H.
  - inversion H. subst. auto.
  - apply bind_inr in H. destruct H as [o1 [s1 [o2 [H1 [H2 _]]]]].
    destruct (process_message_inv _ _ _ _ HI Ht H1) as [HI1 Ht1].
    exact (IH _ _ _ HI1 Ht1 H2).
Qed.

Lemma closed_timed_init : closed_timed init.
Proof. intros c []. Qed.

Lemma output_for_each_print {A} (f : A -> string) (l : list A) :
  for_each l (fun a => print (f a)) = (map (fun a => Stdout (f a)) l, inr tt).
Proof.
  induction l as [| a l IH]; simpl; [reflexivity |].
  rewrite IH. reflexivity.
Qed.

Lemma output_bind {A B} (m : M A) (f : A -> M B) (x : Out) :
  In x (output m) -> In x (output (bind m f)).
Proof.
  unfold output, bind. destruct m as [o [e | a]]; simpl; [auto |].
  destruct (f a) as [o' r]. simpl. intros H. apply in_or_app. auto.
Qed.

Lemma report_open_cons (kc : Key * Connection)
      (opened : list (Key * Connection)) :
  report_open (kc :: opened)
  = (Stdout EmptyString :: Stdout "Currently open connections:"
       :: map (fun a => Stdout (open_line a)) (dict_keys (kc :: opened)),
     inr tt).
Proof. unfold report_open. rewrite output_for_each_print. reflexivity. Qed.

Lemma report_open_output (opened : list (Key * Connection)) (k : Key)
      (c : Connection) :
  In (k, c) opened ->
  In (Stdout "Currently open connections:") (output (report_open opened)) /\
  In (Stdout (open_line k)) (output (report_open opened)).
Proof.
  intros Hin. destruct opened as [| kc opened']; [contradiction |].
  assert (Hk : In k (dict_keys (kc :: opened')))
    by (change (In (fst (k, c)) (map fst (kc :: opened')));
        apply in_map; exact Hin).
  rewrite report_open_cons. unfold output. cbn [fst]. split.
  - right. left. reflexivity.
  - right. right. apply (in_map (fun a => Stdout (open_line a))). exact Hk.
Qed.

(** An open connection is not a closed one: its events are all
    [ACCEPT], a closed connection ends with a [CLOSE]. *)
Lemma open_not_closed (st : State) (k : Key) (c : Connection) :
  Inv st -> In (k, c) (open_connections st) ->
  ~ In c (closed_connections st).
Proof.
  intros HI Ho Hc.
  destruct (inv_open st HI k c Ho) as [_ Hall].
  destruct (inv_closed st HI c Hc) as [es [e [He [_ [Hty _]]]]].
  rewrite He in Hall. apply Forall_app in Hall. destruct Hall as [_ Hall].
  inversion Hall as [| ? ? [_ Hacc] _]. congruence.
Qed.

Lemma grouping_succeeds (st : State) :
  Inv st -> exists grouped,
    group_connections (closed_connections st) = inr grouped.
Proof.
  intros HI. apply group_from_total. apply Forall_forall.
  intros c Hc. apply closed_ok_nonempty. exact (inv_closed st HI c Hc).
Qed.

Lemma ordered_group_members (cs : list Connection)
      (grouped : list (IPAddress * list Connection)) (conns : list Connection) :
  group_connections cs = inr grouped ->
  In conns (ordered_groups grouped) ->
  exists a, In (a, conns) grouped /\ conns = filter (has_ip a) cs /\
            conns <> [].
Proof.
  intros Hg Hin.
  destruct (reversed_sorted_spec (@List.length Connection) (dict_values grouped))
    as [Hp _].
  apply (Permutation_in _ Hp) in Hin. unfold dict_values in Hin.
  apply in_map_iff in Hin. destruct Hin as [[a m] [Hm Hin]]. simpl in Hm. subst m.
  exists a. split; [exact Hin |].
  destruct (group_connections_spec cs grouped Hg) as [_ [_ [Hmem _]]].
  exact (Hmem a conns Hin).
Qed.

(** X20: in a run that ends, an [ACCEPT] after which no [CLOSE] of its
    key arrives (the last event of the sequence, in particular).  At
    the end its key is in the open mapping, the report lists it under
    the heading of the open connections, and its connection is in no
    group of the report, all of whose members are closed connections. *)
Theorem unmatched_accept_reported_open (pre post : list ConnectionEvent)
        (acc : ConnectionEvent) (st : State) (o : list Out) (args : Args) :
  type acc = ACCEPT ->
  (forall e, In e post -> type e = CLOSE -> conn e <> conn acc) ->
  run_events init (pre ++ acc :: post) = (o, inr st) ->
  exists c,
    dict_get key_eqb (conn acc) (open_connections st) = Some c /\
    In acc (events c) /\
    In (Stdout "Currently open connections:") (output (report args st)) /\
    In (Stdout (open_line (conn acc))) (output (report args st)) /\
    ~ In c (closed_connections st) /\
    exists grouped,
      group_connections (closed_connections st) = inr grouped /\
      forall conns, In conns (ordered_groups grouped) ->
                    ~ In c conns /\
                    forall m, In m conns -> In m (closed_connections st).
Proof.
  intros Ht Hno Hrun.
  destruct (accept_open_at_end pre post acc st o Ht Hno Hrun)
    as [HI [c [Hg Hin]]].
  assert (Ho : In (conn acc, c) (open_connections st))
    by (eapply dict_get_In; [apply key_eqb_eq | exact Hg]).
  destruct (report_open_output _ _ _ Ho) as [Hhead Hline].
  assert (Hnc := open_not_closed st (conn acc) c HI Ho).
  destruct (grouping_succeeds st HI) as [grouped Hgr].
  exists c. repeat split; auto.
  - unfold report. apply output_bind. exact Hhead.
  - unfold report. apply output_bind. exact Hline.
  - exists grouped. split; [exact Hgr |]. intros conns Hc.
    destruct (ordered_group_members _ _ _ Hgr Hc) as [a [_ [Hf _]]].
    assert (Hsub : forall m, In m conns -> In m (closed_connections st))
      by (intros m Hm; rewrite Hf in Hm; apply filter_In in Hm; tauto).
    split; [intros Hcc; apply Hnc; auto | exact Hsub].
Qed.

Lemma main_loop_append (l1 l2 : list string) (st : State) :
  main_loop st (l1 ++ l2)
  = bind (main_loop st l1) (fun st1 => main_loop st1 l2).
Proof.
  revert st. induction l1 as [| msg l1 IH]; intros st.
  - cbn [app main_loop]. rewrite bind_ret_l. reflexivity.
  - cbn [app main_loop]. rewrite bind_assoc. apply bind_ext.
    intros st'. apply IH.
Qed.

Lemma float_of_int_0 : float_of_int 0 = 0%float.
Proof. reflexivity. Qed.

Lemma sum_loop_floats (members : list Connection) :
  forall (ds : list float) (st : sum_state),
    Forall2 (fun c d => get_duration c = inr (Some d)) members ds ->
    sum_loop st members = inr (sum_finish (fold_left sum_step ds st)).
Proof.
  induction members as [| c members IH]; intros ds st H; inversion H; subst.
  - reflexivity.
  - simpl. match goal with Hc : get_duration c = _ |- _ => rewrite Hc end.
    simpl. apply IH. assumption.
Qed.

Lemma sum_step_float (ds : list float) :
  forall f c, exists f' c', fold_left sum_step ds (SumFloat f c) = SumFloat f' c'.
Proof.
  induction ds as [| x ds IH]; intros f c; simpl; [eauto |].
  destruct sum_compensated; [destruct (neumaier f c x) |]; apply IH.
Qed.

(** Where [sum] adds the floats one after the other, the result is the
    left-to-right floating-point sum. *)
Lemma sum_plain (ds : list float) :
  sum_compensated = false ->
  forall f c,
    sum_finish (fold_left sum_step ds (SumFloat f c))
    = PyFloat (fold_left PrimFloat.add ds f).
Proof.
  intros Hp. induction ds as [| x ds IH]; intros f c; simpl.
  - rewrite Hp. reflexivity.
  - rewrite Hp. apply IH.
Qed.

(** [sum] over a group that is not empty: [sum] of its durations, a
    float. *)
Lemma sum_durations_additive (members : list Connection) (ds : list float) :
  members <> [] ->
  Forall2 (fun c d => get_duration c = inr (Some d)) members ds ->
  exists total,
    sum_floats ds = PyFloat total /\
    sum_durations (PyInt 0) members = inr (PyFloat total) /\
    (sum_compensated = false -> total = fold_left PrimFloat.add ds 0%float).
Proof.
  intros Hne H. unfold sum_durations, sum_floats.
  rewrite (sum_loop_floats members ds _ H). simpl.
  destruct H as [| c d members ds Hc Hrest]; [contradiction |].
  simpl. rewrite float_of_int_0.
  destruct (sum_step_float ds (PrimFloat.add 0 d) 0) as [f' [c' Hf]].
  exists (if sum_compensated then compensate f' c' else f').
  rewrite Hf. simpl. split; [reflexivity |]. split; [reflexivity |].
  intros Hp.
  assert (Hs := sum_plain ds Hp (PrimFloat.add 0 d) 0%float).
  rewrite Hf in Hs. simpl in Hs. inversion Hs. reflexivity.
Qed.

Lemma timed_durations (st : State) (members : list Connection) :
  closed_timed st ->
  (forall m, In m members -> In m (closed_connections st)) ->
  exists ds, Forall2 (fun c d => get_duration c = inr (Some d)) members ds.
Proof.
  intros Ht. induction members as [| c members IH]; intros Hsub.
  - exists []. constructor.
  - destruct (Ht c (Hsub c (or_introl eq_refl))) as [x Hx].
    destruct IH as [ds Hds]; [intros m Hm; apply Hsub; right; exact Hm |].
    exists (x :: ds). constructor; assumption.
Qed.


End Report.

(* ------------------------------------------------------------------ *)
(** ** Rendering a duration                                              *)
(* ------------------------------------------------------------------ *)

(** C4 (amended): seconds alone below 60, minutes and seconds below
    3600, hours, minutes and seconds from 3600 on; 125 seconds are
    2 minutes and 5 seconds, 3725 seconds are 1 hour, 2 minutes and
    5 seconds. *)
Theorem human_readable_seconds_scaling :
  (forall s, s < 60 ->
             human_readable_seconds s = str_int s ++ " second(s)") /\
  (forall s, 60 <= s < 3600 ->
             human_readable_seconds s
             = str_int (s / 60) ++ " minute(s), "
                 ++ str_int (s mod 60) ++ " second(s)") /\
  (forall s, 3600 <= s ->
             human_readable_seconds s
             = str_int (s / 3600) ++ " hour(s), "
                 ++ str_int (s mod 3600 / 60) ++ " minute(s), "
                 ++ str_int (s mod 3600 mod 60) ++ " second(s)") /\
  human_readable_seconds 125 = "2 minute(s), 5 second(s)" /\
  human_readable_seconds 3725 = "1 hour(s), 2 minute(s), 5 second(s)".
Proof.
  repeat split.
  - intros s Hs. unfold human_readable_seconds.
    rewrite (proj2 (Z.ltb_lt s 60) Hs). reflexivity.
  - intros s [Hlo Hhi]. unfold human_readable_seconds.
    rewrite (proj2 (Z.ltb_ge s 60) Hlo), (proj2 (Z.ltb_lt s 3600) Hhi).
    reflexivity.
  - intros s Hs. unfold human_readable_seconds.
    assert (H60 : 60 <= s) by lia.
    rewrite (proj2 (Z.ltb_ge s 60) H60), (proj2 (Z.ltb_ge s 3600) Hs).
    reflexivity.
Qed.

Lemma float_ratio_den_pos (s : bool) (m : positive) (e : Z) :
  0 < snd (float_ratio s m e).
Proof. unfold float_ratio. simpl. apply Z.pow_pos_nonneg; lia. Qed.

(** Rounding toward zero: the quotient keeps the sign and its absolute
    value is the integral part of the absolute value. *)
Lemma quot_truncates (n d : Z) :
  0 < d ->
  Z.abs (Z.quot n d) * d <= Z.abs n < (Z.abs (Z.quot n d) + 1) * d /\
  0 <= Z.quot n d * n.
Proof.
  intros Hd.
  assert (Habs : Z.abs (Z.quot n d) = Z.abs n / d).
  { rewrite <- Z.quot_abs by lia. rewrite (Z.abs_eq d) by lia.
    apply Z.quot_div_nonneg; [apply Z.abs_nonneg | exact Hd]. }
  rewrite Habs. split.
  - assert (H1 := Z.mul_div_le (Z.abs n) d Hd).
    assert (H2 := Z.mul_succ_div_gt (Z.abs n) d Hd). lia.
  - destruct (Z.le_gt_cases 0 n) as [Hn | Hn].
    + assert (0 <= Z.quot n d) by (apply Z.quot_pos; lia). nia.
    + assert (Hq : Z.quot n d = - Z.quot (- n) d)
        by (rewrite Z.quot_opp_l by lia; lia).
      assert (0 <= Z.quot (- n) d) by (apply Z.quot_pos; lia). nia.
Qed.

Lemma int_of_float_exact (x : float) (z : Z) :
  int_of_float x = inr z ->
  exists n d, exact_value x = Some (n, d) /\ 0 < d /\ z = Z.quot n d.
Proof.
  unfold int_of_float, exact_value. destruct (Prim2SF x) as [s | s | | s m e].
  - intros H. inversion H. exists 0, 1. repeat split; lia.
  - discriminate.
  - discriminate.
  - assert (Hd := float_ratio_den_pos s m e).
    destruct (float_ratio s m e) as [n d]. intros H. inversion H.
    exists n, d. auto.
Qed.

Section Rendering.
Context {L : PyLib}.

(** C10: the report line of a group whose durations sum to the float
    [total] shows [int(total)] through [human_readable_seconds]: the
    exact value of [total] rounded toward zero, what is behind the
    point being dropped. *)
Theorem report_line_truncates (args : Args) (conns : list Connection)
        (c0 : Connection) (a : IPAddress) (msg : string)
        (total : float) (seconds : Z) :
  getitem conns 0 = inr c0 -> get_ip c0 = inr a ->
  sum_durations (PyInt 0) conns = inr (PyFloat total) ->
  message_of args a = inr msg ->
  int_of_float total = inr seconds ->
  report_group args conns
  = ([Stdout (group_line msg (List.length conns) seconds)], inr tt) /\
  exists n d,
    exact_value total = Some (n, d) /\ 0 < d /\
    seconds = Z.quot n d /\
    Z.abs seconds * d <= Z.abs n < (Z.abs seconds + 1) * d /\
    0 <= seconds * n.
Proof.
  intros H0 Hip Hsum Hmsg Hint. split.
  - unfold report_group. rewrite H0, bind_lift_inr, Hip, bind_lift_inr.
    rewrite Hsum, bind_lift_inr. unfold message_of in Hmsg.
    destruct (geo_ip args).
    + destruct (get_geoip_info a) as [e | info]; [discriminate |].
      inversion Hmsg. subst msg.
      rewrite bind_lift_inr, bind_ret_l. cbn [py_int_of_num].
      rewrite Hint, bind_lift_inr. reflexivity.
    + inversion Hmsg. subst msg. rewrite bind_ret_l. cbn [py_int_of_num].
      rewrite Hint, bind_lift_inr. reflexivity.
  - destruct (int_of_float_exact total seconds Hint) as [n [d [Hv [Hd Hz]]]].
    exists n, d. destruct (quot_truncates n d Hd) as [Hb Hs].
    rewrite <- Hz in Hb, Hs. auto.
Qed.

End Rendering.

(* ------------------------------------------------------------------ *)
(** ** The scenarios, on the reference library                          *)

(* ------------------------------------------------------------------ *)
(** ** The program at the scenarios                                     *)
(* ------------------------------------------------------------------ *)

Lemma accept_line_parses :
  @from_journal Ref.lib Ref.accept_line = ([], inr (Some Scenario.accept_event)).
Proof. reflexivity. Qed.

Lemma close_line_parses :
  @from_journal Ref.lib Ref.close_line = ([], inr (Some Scenario.close_event)).
Proof. reflexivity. Qed.

Lemma close_line_5_9_parses :
  @from_journal Ref.lib Scenario.close_line_5_9 = ([], inr (Some Scenario.close_event_5_9)).
Proof. reflexivity. Qed.

(** The first scenario of the specification, from the lines to the
    report. *)
Lemma scenario_one_connection :
  @main Ref.lib (mkArgs false) [Ref.accept_line; Ref.close_line]
  = ([Stdout EmptyString; Stdout "Closed connections: 1";
      Stdout "1.2.3.4: 1 connections, spent 5 second(s)"], inr tt).
Proof. reflexivity. Qed.

(** Two descriptors of one address, 5.0 and 10.0 seconds: one group of
    two connections and fifteen seconds. *)
Lemma scenario_two_descriptors :
  @main Ref.lib (mkArgs false)
     [Ref.accept_line; Ref.close_line; Scenario.accept_line_3; Scenario.close_line_3]
  = ([Stdout EmptyString; Stdout "Closed connections: 2";
      Stdout "1.2.3.4: 2 connections, spent 15 second(s)"], inr tt).
Proof. reflexivity. Qed.

(** A line of three fields is skipped in silence. *)
Lemma scenario_three_fields :
  @from_journal Ref.lib "a b c" = ([], inr None).
Proof. reflexivity. Qed.

(** An unknown keyword: the diagnostic, and the run goes on. *)
Lemma scenario_unknown_keyword :
  @main Ref.lib (mkArgs false)
     ["2025-08-01T10:00:00.000000Z RESET host=1.2.3.4 n fd=5 x"]
  = ([Stdout "Unmatched connection type RESET"; Stdout EmptyString;
      Stdout "Closed connections: 0"], inr tt).
Proof. reflexivity. Qed.

(** Two sources with one connection each: the later source comes first
    in the report. *)
Lemma scenario_two_sources :
  @main Ref.lib (mkArgs false)
     [Ref.accept_line; Ref.close_line; Scenario.accept_line_2; Scenario.close_line_2]
  = ([Stdout EmptyString; Stdout "Closed connections: 2";
      Stdout "5.6.7.8: 1 connections, spent 10 second(s)";
      Stdout "1.2.3.4: 1 connections, spent 5 second(s)"], inr tt).
Proof. reflexivity. Qed.

Lemma two_sources_from_lines :
  @main_loop Ref.lib init
     [Ref.accept_line; Ref.close_line; Scenario.accept_line_2; Scenario.close_line_2]
  = ([], inr (mkState Scenario.two_sources [])).
Proof. reflexivity. Qed.

(** A total of 5.9 seconds is reported as 5 seconds. *)
Lemma scenario_5_9_seconds :
  @main Ref.lib (mkArgs false) [Ref.accept_line; Scenario.close_line_5_9]
  = ([Stdout EmptyString; Stdout "Closed connections: 1";
      Stdout "1.2.3.4: 1 connections, spent 5 second(s)"], inr tt).
Proof. reflexivity. Qed.

(** A [CLOSE] line before any [ACCEPT]: the run ends in [KeyError]
    without a line of output; the [ACCEPT] that follows is not read. *)
Lemma scenario_unmatched_close :
  @main Ref.lib (mkArgs false) [Ref.close_line; Ref.accept_line]
  = ([], inl KeyError).
Proof. reflexivity. Qed.

(** A [CLOSE] of another key before the pair: the pair is lost with
    the run, and so is an [ACCEPT] at the end. *)
Lemma scenario_pair_after_unmatched_close :
  @main Ref.lib (mkArgs false)
     [Scenario.close_line_2; Ref.accept_line; Ref.close_line]
  = ([], inl KeyError).
Proof. reflexivity. Qed.

Lemma scenario_accept_after_unmatched_close :
  @main Ref.lib (mkArgs false) [Scenario.close_line_2; Ref.accept_line]
  = ([], inl KeyError).
Proof. reflexivity. Qed.

Lemma close_line_2_parses :
  @from_journal Ref.lib Scenario.close_line_2
  = ([], inr (Some Scenario.close_event_2)).
Proof. reflexivity. Qed.

(** Ten connections of a tenth of a second: the plain sum stays below
    one second, the compensated sum of CPython 3.12 reaches it. *)
Lemma scenario_ten_tenths :
  @main Ref.lib (mkArgs false) Scenario.ten_tenths
  = ([Stdout EmptyString; Stdout "Closed connections: 10";
      Stdout "1.2.3.4: 10 connections, spent 0 second(s)"], inr tt).
Proof. reflexivity. Qed.

Lemma scenario_ten_tenths_compensated :
  @main Ref.lib_312 (mkArgs false) Scenario.ten_tenths
  = ([Stdout EmptyString; Stdout "Closed connections: 10";
      Stdout "1.2.3.4: 10 connections, spent 1 second(s)"], inr tt).
Proof. reflexivity. Qed.

(** Five words, two spaces: six fields for [split(" ")], and an event. *)
Lemma double_space_line_parses :
  @from_journal Ref.lib Scenario.double_space_line = ([], inr (Some Scenario.accept_event)).
Proof. reflexivity. Qed.

(* ------------------------------------------------------------------ *)
(** ** The theorems at the scenarios                                     *)
(* ------------------------------------------------------------------ *)

(** A [CLOSE] first: [KeyError], and the [ACCEPT] behind it is not
    processed. *)
Lemma unmatched_close_witness :
  @run_events Ref.lib init [Scenario.close_event; Scenario.accept_event]
  = ([], inl KeyError).
Proof.
  apply (@unmatched_close_raises_KeyError Ref.lib init Scenario.close_event
           [Scenario.accept_event]); reflexivity.
Defined.

(** The first scenario: the [CLOSE] after the [ACCEPT] closes one
    connection of 5.0 seconds and frees the key. *)
Lemma accept_then_close_witness :
  exists (c : @Connection Ref.lib) (st2 : @State Ref.lib),
    process_event Scenario.one_open Scenario.close_event = ([], inr st2) /\
    closed_connections st2 = [c] /\
    get_duration c = inr (Some 5%float) /\
    dict_get key_eqb (conn Scenario.accept_event) (open_connections st2)
    = None.
Proof.
  destruct (@accept_then_close Ref.lib [] [] Scenario.accept_event
              Scenario.close_event Scenario.one_open []
              eq_refl eq_refl eq_refl
              (fun e (H : In e []) _ => match H with end) eq_refl)
    as [c [es [st2 [H1 [H2 [H3 [H4 [H5 [H6 H7]]]]]]]]].
  exists c, st2. repeat split; assumption.
Defined.

(** A [CLOSE] of the second source first: the pair of the first
    scenario behind it is lost. *)
Lemma accept_then_close_lost_witness :
  @run_events Ref.lib init
     [Scenario.close_event_2; Scenario.accept_event; Scenario.close_event]
  = ([], inl KeyError).
Proof.
  apply (@accept_then_close_lost_after_unmatched_close Ref.lib [] [] []
           Scenario.close_event_2 Scenario.accept_event Scenario.close_event
           init); try reflexivity.
  intros e [].
Defined.

(** The two sources: the groups of the report, in their order. *)
Lemma groups_descending_witness :
  Permutation (ordered_groups Scenario.two_groups)
              (dict_values Scenario.two_groups) /\
  StronglySorted (fun g1 g2 => (List.length g2 <= List.length g1)%nat)
                 (ordered_groups Scenario.two_groups) /\
  dict_keys Scenario.two_groups
  = encounter [Scenario.ip_1_2_3_4; Scenario.ip_5_6_7_8] /\
  forall n,
    filter (key_is (@List.length (@Connection Ref.lib)) n)
           (ordered_groups Scenario.two_groups)
    = rev (filter (key_is (@List.length (@Connection Ref.lib)) n)
                  (dict_values Scenario.two_groups)).
Proof.
  apply (@groups_descending_ties_reversed Ref.lib Scenario.two_sources
           [Scenario.ip_1_2_3_4; Scenario.ip_5_6_7_8] Scenario.two_groups).
  - repeat constructor.
  - reflexivity.
Defined.

(** C3, as stated, fails on the two sources: both groups have one
    connection, 1.2.3.4 is met first, and the report has 5.6.7.8
    first. *)
Lemma ties_not_in_encounter_order :
  ~ @groups_in_stated_order Ref.lib Scenario.two_sources.
Proof.
  intros H. specialize (H Scenario.two_groups eq_refl).
  assert (E1 : ordered_groups Scenario.two_groups
               = [[Scenario.connection_2]; [Scenario.connection_1]])
    by reflexivity.
  assert (E2 : stable_descending (@List.length (@Connection Ref.lib))
                 (dict_values Scenario.two_groups)
               = [[Scenario.connection_1]; [Scenario.connection_2]])
    by reflexivity.
  rewrite E1, E2 in H.
  assert (E3 : 6 = 5).
  { exact (f_equal
             (fun groups : list (list (@Connection Ref.lib)) =>
                match groups with
                | (c :: _) :: _ =>
                    match events c with e :: _ => fd e | [] => 0 end
                | _ => 0
                end) H). }
  discriminate E3.
Qed.

(** C4, as stated, fails at 3725 seconds: they hold two minutes. *)
Lemma human_readable_3725_has_minutes :
  human_readable_seconds 3725 <> "1 hour(s), 0 minute(s), 5 second(s)".
Proof. intros H. vm_compute in H. discriminate H. Qed.

(** C5, as stated, fails on a timestamp without a fraction of a second:
    six fields, a [host=], an address, a descriptor and no duration to
    read, and the parser raises. *)
Lemma timestamp_failure_not_stated :
  ~ @parser_as_stated Ref.lib Scenario.whole_second_line.
Proof.
  intros [_ [H _]].
  assert (Hs : @skipped Scenario.whole_second_line = false) by reflexivity.
  assert (Hr : raises (@from_journal Ref.lib Scenario.whole_second_line))
    by (exists (ValueError "strptime"); reflexivity).
  destruct (proj1 (H Hs) Hr) as [Hb | [Hb | [Hb _]]].
  - change (Some Scenario.ip_1_2_3_4 = None) in Hb. discriminate Hb.
  - change (Some 5 = @None Z) in Hb. discriminate Hb.
  - change ("ACCEPT" = "CLOSE") in Hb. discriminate Hb.
Qed.

(** The connection of one [ACCEPT]: an event of another descriptor is
    refused, the [CLOSE] of the same key is taken. *)
Lemma add_event_integrity_witness :
  (exists msg,
      add_event (mkConnection [Scenario.accept_event]) Scenario.accept_event_2
      = inl (ValueError msg)) /\
  (exists c',
      add_event (mkConnection [Scenario.accept_event]) Scenario.close_event
      = inr c' /\
      events c' = [Scenario.accept_event; Scenario.close_event] /\
      conn_inv c').
Proof.
  split.
  - apply (@add_event_integrity Ref.lib
             (mkConnection [Scenario.accept_event]) Scenario.accept_event []
             Scenario.accept_event_2 eq_refl).
    + repeat constructor.
    + left. discriminate.
  - apply (@add_event_integrity Ref.lib
             (mkConnection [Scenario.accept_event]) Scenario.accept_event []
             Scenario.close_event eq_refl).
    + repeat constructor.
    + split; reflexivity.
Defined.

(** The [CLOSE] line of the first scenario has a duration, its
    [ACCEPT] line has none. *)
Lemma parsed_duration_witness :
  ((duration Scenario.close_event <> None
    <-> type Scenario.close_event = CLOSE) /\
   (type Scenario.close_event = ACCEPT \/ type Scenario.close_event = UNKNOWN
    -> duration Scenario.close_event = None)) /\
  ((duration Scenario.accept_event <> None
    <-> type Scenario.accept_event = CLOSE) /\
   (type Scenario.accept_event = ACCEPT
    \/ type Scenario.accept_event = UNKNOWN
    -> duration Scenario.accept_event = None)).
Proof.
  split.
  - apply (@parsed_duration_iff_close Ref.lib Ref.close_line []).
    reflexivity.
  - apply (@parsed_duration_iff_close Ref.lib Ref.accept_line []).
    reflexivity.
Defined.

(** The first scenario and then an [ACCEPT] of the second source: its
    key is open at the end, the report lists it, and the one group of
    the report holds the closed connection alone. *)
Lemma unmatched_accept_witness :
  exists c : @Connection Ref.lib,
    dict_get key_eqb (conn Scenario.accept_event_2)
             (open_connections Scenario.closed_and_open) = Some c /\
    In Scenario.accept_event_2 (events c) /\
    In (Stdout "Currently open connections:")
       (output (report (mkArgs false) Scenario.closed_and_open)) /\
    In (Stdout (open_line (conn Scenario.accept_event_2)))
       (output (report (mkArgs false) Scenario.closed_and_open)) /\
    ~ In c (closed_connections Scenario.closed_and_open) /\
    exists grouped,
      group_connections (closed_connections Scenario.closed_and_open)
      = inr grouped /\
      forall conns, In conns (ordered_groups grouped) ->
                    ~ In c conns /\
                    forall m, In m conns ->
                              In m (closed_connections Scenario.closed_and_open).
Proof.
  apply (@unmatched_accept_reported_open Ref.lib
           [Scenario.accept_event; Scenario.close_event] []
           Scenario.accept_event_2 Scenario.closed_and_open []
           (mkArgs false)).
  - reflexivity.
  - intros e [].
  - reflexivity.
Defined.


(** A group of one connection of 5.9 seconds: the line says 5. *)
Lemma report_line_5_9_witness :
  @report_group Ref.lib (mkArgs false) [Scenario.connection_5_9]
  = ([Stdout "1.2.3.4: 1 connections, spent 5 second(s)"], inr tt) /\
  exists n d,
    exact_value Scenario.float_5_9 = Some (n, d) /\ 0 < d /\
    5 = Z.quot n d /\
    Z.abs 5 * d <= Z.abs n < (Z.abs 5 + 1) * d /\
    0 <= 5 * n.
Proof.
  apply (@report_line_truncates Ref.lib (mkArgs false)
           [Scenario.connection_5_9] Scenario.connection_5_9
           Scenario.ip_1_2_3_4 "1.2.3.4" Scenario.float_5_9 5);
    reflexivity.
Defined.

(* ------------------------------------------------------------------ *)
(** ** More on the correlation loop                                      *)
(* ------------------------------------------------------------------ *)

Section LoopFacts.
Context {L : PyLib}.



(** X2: Events of an unknown kind take no part: the loop over a list of
    events is the loop over its [ACCEPT] and [CLOSE] events. *)
Theorem unknown_events_are_ignored (evs : list ConnectionEvent) (st : State) :
  run_events st (filter correlated evs) = run_events st evs.
Proof.
  revert st. induction evs as [| e evs IH]; intros st; [reflexivity |].
  simpl. unfold correlated at 1. destruct (type e) eqn:Ht; simpl.
  - rewrite (process_event_unknown st e Ht).
    change ([], inr st) with (ret st). rewrite bind_ret_l. apply IH.
  - apply bind_ext. intros st'. apply IH.
  - apply bind_ext. intros st'. apply IH.
Qed.

(** X3: [add_event] and the two getters.  A refusal is a [ValueError] and
    needs a connection that already has an event; after an accepted
    event the events are the old ones and the new one, the duration of
    the connection is that of the new event, and its address is still
    that of the first event. *)
Theorem add_event_then_getters (c : Connection) (e : ConnectionEvent) :
  (forall x, add_event c e = inl x ->
             (exists msg, x = ValueError msg) /\ events c <> []) /\
  (forall c', add_event c e = inr c' ->
              events c' = (events c ++ [e])%list /\
              get_duration c' = inr (duration e) /\
              get_ip c' = match events c with
                          | [] => inr (ip e)
                          | first :: _ => inr (ip first)
                          end).
Proof.
  unfold add_event. destruct (events c) as [| e0 es] eqn:Hc.
  - split; [intros x Hx; discriminate Hx |].
    intros c' H. inversion H. subst. auto.
  - assert (Hne : e0 :: es <> []) by discriminate.
    destruct (nonempty_snoc _ Hne) as [l [a Hl]].
    assert (Hlast : last_item (e0 :: es) = inr a)
      by (rewrite Hl; apply last_item_app).
    rewrite Hlast.
    destruct (negb (ip_eqb (ip a) (ip e)));
      [split; [intros x Hx; inversion Hx; split; [eauto | exact Hne]
              | intros c' Hc'; discriminate Hc'] |].
    destruct (negb (fd a =? fd e));
      [split; [intros x Hx; inversion Hx; split; [eauto | exact Hne]
              | intros c' Hc'; discriminate Hc'] |].
    split; [intros x Hx; discriminate Hx |].
    intros c' H. inversion H. subst. simpl.
    split; [reflexivity |]. split; [| reflexivity].
    unfold get_duration. cbn [events].
    change (e0 :: (es ++ [e])%list) with ((e0 :: es) ++ [e])%list.
    rewrite last_item_app. reflexivity.
Qed.

(** X4: After a loop over the journal that ends, the keys of the open
    mapping are distinct, an open connection holds [ACCEPT] events of
    its key and nothing else, a closed connection holds [ACCEPT] events
    of one key and then one [CLOSE] of that key, and every closed
    connection has a duration. *)
Theorem loop_state_shape (msgs : list string) (o : list Out) (st : State) :
  main_loop init msgs = (o, inr st) ->
  NoDup (dict_keys (open_connections st)) /\
  (forall k c, In (k, c) (open_connections st) ->
               events c <> [] /\
               Forall (fun e => conn e = k /\ type e = ACCEPT) (events c)) /\
  (forall c, In c (closed_connections st) ->
             exists es e x,
               events c = (es ++ [e])%list /\ es <> [] /\
               type e = CLOSE /\ duration e = Some x /\
               Forall (fun e' => conn e' = conn e /\ type e' = ACCEPT) es).
Proof.
  intros Hrun.
  destruct (main_loop_inv msgs init st o Inv_init closed_timed_init Hrun)
    as [[H1 H2 H3] Ht].
  split; [exact H1 |]. split; [exact H2 |].
  intros c Hc. destruct (H3 c Hc) as [es [e [He [Hne [Hty Hall]]]]].
  destruct (Ht c Hc) as [x Hx].
  exists es, e, x. repeat split; auto.
  unfold get_duration in Hx. rewrite He, last_item_app in Hx.
  inversion Hx. reflexivity.
Qed.

End LoopFacts.

(* ------------------------------------------------------------------ *)
(** ** Counting events and connections                                   *)
(* ------------------------------------------------------------------ *)

Section DictWeight.
Context {K V : Type} (eqb : K -> K -> bool) (w : V -> nat).
Hypothesis eqb_eq : forall a b, eqb a b = true <-> a = b.

Lemma weight_set_new (k : K) (v : V) (d : list (K * V)) :
  dict_get eqb k d = None ->
  weight w (dict_set eqb k v d) = (weight w d + w v)%nat.
Proof.
  unfold weight, dict_values.
  induction d as [| [k0 v0] d IH]; simpl; intros Hg; [lia |].
  destruct (eqb k0 k) eqn:E; [discriminate |]. simpl.
  rewrite (IH Hg). lia.
Qed.

Lemma weight_set_old (k : K) (v v' : V) (d : list (K * V)) :
  dict_get eqb k d = Some v ->
  (weight w (dict_set eqb k v' d) + w v = weight w d + w v')%nat.
Proof.
  unfold weight, dict_values.
  induction d as [| [k0 v0] d IH]; simpl; intros Hg; [discriminate |].
  destruct (eqb k0 k) eqn:E; simpl.
  - inversion Hg. subst. lia.
  - specialize (IH Hg). lia.
Qed.


End DictWeight.

Lemma list_sum_perm (l l' : list nat) :
  Permutation l l' -> list_sum l = list_sum l'.
Proof. induction 1; simpl; lia. Qed.

Section Counting.
Context {L : PyLib}.






Lemma group_from_total_members (cs : list Connection) :
  forall acc r,
    group_from acc cs = inr r ->
    members_total (dict_values r)
    = (members_total (dict_values acc) + List.length cs)%nat.
Proof.
  unfold members_total.
  change (forall acc r,
             group_from acc cs = inr r ->
             weight (@List.length Connection) r
             = (weight (@List.length Connection) acc + List.length cs)%nat).
  induction cs as [| c cs IH]; intros acc r H; simpl in H.
  - inversion H. subst. simpl. lia.
  - destruct (get_ip c) as [e | a] eqn:Hip; [discriminate |].
    destruct (dict_get ip_eqb a acc) as [l |] eqn:Hg.
    + rewrite (IH _ _ H).
      assert (Hw := weight_set_old ip_eqb (@List.length Connection)
                      a l (l ++ [c])%list acc Hg).
      rewrite length_app in Hw. simpl in *. lia.
    + rewrite (IH _ _ H).
      rewrite (weight_set_new ip_eqb (@List.length Connection) a [c] acc Hg).
      simpl. lia.
Qed.

(** X6: The counts of the groups of the report add up to the number of
    closed connections, and there is one group for each address that
    the closed connections have. *)
Theorem group_counts_add_up (cs : list Connection) (ips : list IPAddress)
        (grouped : list (IPAddress * list Connection)) :
  Forall2 (fun c a => get_ip c = inr a) cs ips ->
  group_connections cs = inr grouped ->
  members_total (ordered_groups grouped) = List.length cs /\
  List.length (ordered_groups grouped) = List.length (encounter ips).
Proof.
  intros Hips H.
  destruct (reversed_sorted_spec (@List.length Connection) (dict_values grouped))
    as [Hp _].
  fold (ordered_groups grouped) in Hp. split.
  - unfold members_total.
    rewrite (list_sum_perm _ _ (Permutation_map _ Hp)).
    apply (group_from_total_members cs [] grouped H).
  - rewrite (Permutation_length Hp).
    destruct (group_connections_spec cs grouped H) as [_ [Hk _]].
    rewrite <- (Hk ips Hips). unfold dict_values, dict_keys.
    rewrite !length_map. reflexivity.
Qed.

End Counting.

(* ------------------------------------------------------------------ *)
(** ** More on the parser and the loop over the journal                  *)
(* ------------------------------------------------------------------ *)

Section LineFacts.
Context {L : PyLib}.

(** X7: The parser reads fields 0, 1, 2 and 4, and field 5 of a [CLOSE]
    line: two lines of six fields or more that agree on these give the
    same result, whatever field 3, the fields behind field 5 and field
    5 of another line hold. *)
Theorem from_journal_reads_five_fields (m1 m2 : string) :
  (6 <= List.length (str_split space m1))%nat ->
  (6 <= List.length (str_split space m2))%nat ->
  field 0 m1 = field 0 m2 -> field 1 m1 = field 1 m2 ->
  field 2 m1 = field 2 m2 -> field 4 m1 = field 4 m2 ->
  (field 1 m1 = "CLOSE" -> field 5 m1 = field 5 m2) ->
  from_journal m1 = from_journal m2.
Proof.
  intros H1 H2 F0 F1 F2 F4 F5.
  assert (Hs : skipped m1 = skipped m2).
  { unfold skipped. rewrite F2.
    rewrite (proj2 (Nat.ltb_ge _ _) H1), (proj2 (Nat.ltb_ge _ _) H2).
    reflexivity. }
  destruct (skipped m1) eqn:Hs1; symmetry in Hs.
  - rewrite (from_journal_skipped m1 Hs1), (from_journal_skipped m2 Hs).
    reflexivity.
  - rewrite (from_journal_parsed m1 Hs1), (from_journal_parsed m2 Hs).
    unfold finish. rewrite <- F0, <- F1, <- F2, <- F4.
    destruct (String.eqb (field 1 m1) "CLOSE") eqn:Hc.
    + apply String.eqb_eq in Hc. rewrite <- (F5 Hc). reflexivity.
    + destruct (value_of (field 2 m1)); [| reflexivity].
      destruct (ip_address s); [| reflexivity].
      destruct (value_of (field 4 m1)); [| reflexivity].
      destruct (py_int s0); reflexivity.
Qed.

Lemma process_message_skipped (st : State) (msg : string) :
  skipped msg = true -> process_message st msg = ([], inr st).
Proof.
  intros Hs. unfold process_message. rewrite (from_journal_skipped msg Hs).
  reflexivity.
Qed.

(** X8: Lines that are not events leave no trace: the loop over the
    messages is the loop over those that are not skipped. *)
Theorem skipped_lines_leave_no_trace (msgs : list string) (st : State) :
  main_loop st (filter (fun msg => negb (skipped msg)) msgs)
  = main_loop st msgs.
Proof.
  revert st. induction msgs as [| msg msgs IH]; intros st; [reflexivity |].
  simpl. destruct (skipped msg) eqn:Hs; simpl.
  - rewrite (process_message_skipped st msg Hs).
    change ([], inr st) with (ret st). rewrite bind_ret_l. apply IH.
  - apply bind_ext. intros st'. apply IH.
Qed.

(** The message of an entry without a [MESSAGE] is skipped, on every
    library. *)
Lemma no_message_is_skipped (t : Z) :
  skipped (entry_message (mkEntry t None)) = true.
Proof. reflexivity. Qed.

Lemma from_journal_output (msg : string) (o : list Out)
      (r : option ConnectionEvent) :
  from_journal msg = (o, inr r) -> o = loop_output msg.
Proof.
  unfold loop_output. destruct (skipped msg) eqn:Hs.
  - rewrite (from_journal_skipped msg Hs). intros H. inversion H. reflexivity.
  - rewrite (from_journal_parsed msg Hs).
    unfold finish, diagnostic, type_of_keyword.
    destruct (value_of (field 2 msg)); [| discriminate].
    destruct (ip_address s); [| discriminate].
    destruct (value_of (field 4 msg)); [| discriminate].
    destruct (py_int s0); [| discriminate].
    destruct (String.eqb (field 1 msg) "ACCEPT").
    { destruct (strptime (field 0 msg)); [| discriminate].
      intros H. inversion H. reflexivity. }
    destruct (String.eqb (field 1 msg) "CLOSE").
    { destruct (value_of (field 5 msg)); [| discriminate].
      destruct (py_float s1); [| discriminate].
      destruct (strptime (field 0 msg)); [| discriminate].
      intros H. inversion H. reflexivity. }
    destruct (strptime (field 0 msg)); [| discriminate].
    intros H. inversion H. reflexivity.
Qed.

Lemma main_loop_output_from (msgs : list string) :
  forall (st st' : State) (o : list Out),
    Inv st -> main_loop st msgs = (o, inr st') ->
    o = flat_map loop_output msgs.
Proof.
  induction msgs as [| msg msgs IH]; intros st st' o HI H; simpl in H.
  - inversion H. reflexivity.
  - apply bind_inr in H. destruct H as [o1 [s1 [o2 [H1 [H2 ->]]]]].
    unfold process_message in H1. apply bind_inr in H1.
    destruct H1 as [oa [ev [ob [Ha [Hb ->]]]]].
    rewrite (from_journal_output msg oa ev Ha). simpl.
    destruct ev as [e |].
    + destruct (process_event_Inv _ _ _ _ HI Hb) as [HI1 ->].
      rewrite app_nil_r. f_equal. exact (IH _ _ _ HI1 H2).
    + inversion Hb. subst. rewrite app_nil_r. f_equal.
      exact (IH _ _ _ HI H2).
Qed.

(** X9: A loop over the journal that ends has printed, in the order of the
    lines, one [Unmatched connection type] line for every line that is
    not skipped and whose keyword is neither [ACCEPT] nor [CLOSE], and
    nothing else; nothing goes to standard error. *)
Theorem main_loop_prints_unknown_keywords (msgs : list string)
        (st : State) (o : list Out) :
  main_loop init msgs = (o, inr st) ->
  o = flat_map loop_output msgs /\
  forall line, ~ In (Stderr line) o.
Proof.
  intros H. assert (Ho := main_loop_output_from msgs init st o Inv_init H).
  split; [exact Ho |]. subst o. intros line Hin.
  apply in_flat_map in Hin. destruct Hin as [msg [_ Hin]].
  unfold loop_output, diagnostic in Hin.
  destruct (skipped msg); [contradiction |].
  destruct (type_of_keyword (field 1 msg)); simpl in Hin;
    try contradiction.
  destruct Hin as [Hin | []]. discriminate Hin.
Qed.

(** C8 (what the code does): after a [CLOSE] line whose key is not
    open, [main] ends in [KeyError] where the loop stands, whatever
    follows.  With an [ACCEPT] as the last line: that line is not read,
    and the report is not printed; the output is that of the loop over
    the lines before the [CLOSE], which holds neither the heading of the
    open connections nor the line of the key of the [ACCEPT]. *)
Theorem unmatched_accept_unreported_after_unmatched_close
        (args : Args) (pre mid : list string) (line acc_line : string)
        (other acc : ConnectionEvent) (o : list Out) (st : State) :
  main_loop init pre = (o, inr st) ->
  from_journal line = ([], inr (Some other)) ->
  type other = CLOSE ->
  dict_get key_eqb (conn other) (open_connections st) = None ->
  from_journal acc_line = ([], inr (Some acc)) ->
  type acc = ACCEPT ->
  main args (pre ++ line :: mid ++ [acc_line]) = (o, inl KeyError) /\
  ~ In (Stdout "Currently open connections:") o /\
  ~ In (Stdout (open_line (conn acc))) o.
Proof.
  intros Hpre Hline Ht Hg _ _.
  assert (Ho := main_loop_output_from pre init st o Inv_init Hpre).
  split; [| split].
  - unfold main. rewrite main_loop_append, Hpre. simpl.
    unfold process_message. rewrite Hline. simpl.
    rewrite process_event_close by exact Ht.
    rewrite (close_step_unmatched st other Hg). simpl.
    rewrite app_nil_r. reflexivity.
  - subst o. intros Hin. apply in_flat_map in Hin.
    destruct Hin as [msg [_ Hin]]. unfold loop_output, diagnostic in Hin.
    destruct (skipped msg); [contradiction |].
    destruct (type_of_keyword (field 1 msg)); simpl in Hin;
      try contradiction.
    destruct Hin as [Hin | []]. discriminate Hin.
  - subst o. intros Hin. apply in_flat_map in Hin.
    destruct Hin as [msg [_ Hin]]. unfold loop_output, diagnostic in Hin.
    destruct (skipped msg); [contradiction |].
    destruct (type_of_keyword (field 1 msg)); simpl in Hin;
      try contradiction.
    destruct Hin as [Hin | []]. unfold open_line in Hin.
    discriminate Hin.
Qed.

End LineFacts.

(* ------------------------------------------------------------------ *)
(** ** The journal                                                       *)
(* ------------------------------------------------------------------ *)

Lemma yield_loop_window (end_time : Z) (j : Reader) :
  exists n,
    yield_loop end_time j = map entry_message (firstn n j) /\
    Forall (fun entry => realtime entry <= end_time) (firstn n j) /\
    match nth_error j n with
    | Some entry => end_time < realtime entry
    | None => (List.length j <= n)%nat
    end.
Proof.
  induction j as [| entry j IH]; simpl.
  - exists 0%nat. simpl. repeat split; [constructor | lia].
  - destruct (end_time <? realtime entry) eqn:E.
    + exists 0%nat. simpl. repeat split; [constructor |].
      apply Z.ltb_lt. exact E.
    + destruct IH as [n [H1 [H2 H3]]]. exists (S n). simpl.
      rewrite H1. split; [reflexivity |]. split.
      * constructor; [apply Z.ltb_ge; exact E | exact H2].
      * destruct (nth_error j n); [exact H3 | lia].
Qed.

(** X10: [yield_journal_messages] never yields the entry that the reader
    returns first.  It yields the messages of the entries behind it, in
    their order, up to the first entry later than [end_time]: all the
    entries it yields are within [end_time], and the entry it stops at,
    if there is one, is not. *)
Theorem journal_window (end_time : Z) (j : Reader) :
  exists n,
    yield_journal_messages end_time j
    = map entry_message (firstn n (tl j)) /\
    Forall (fun entry => realtime entry <= end_time) (firstn n (tl j)) /\
    match nth_error (tl j) n with
    | Some entry => end_time < realtime entry
    | None => (List.length (tl j) <= n)%nat
    end.
Proof.
  destruct j as [| first j]; simpl; apply yield_loop_window.
Qed.

(* ------------------------------------------------------------------ *)
(** ** The address sent to the geolocation service                       *)
(* ------------------------------------------------------------------ *)

Lemma str_split_nonempty (c : ascii) (s : string) : str_split c s <> [].
Proof.
  destruct s as [| a s]; simpl; [discriminate |].
  destruct (Ascii.eqb a c); [discriminate |].
  destruct (str_split c s); discriminate.
Qed.

Lemma str_split_single (c : ascii) (s w : string) :
  str_split c s = [w] -> s = w /\ contains c s = false.
Proof.
  revert w. induction s as [| a s IH]; intros w; simpl.
  - intros H. inversion H. auto.
  - destruct (Ascii.eqb a c) eqn:E.
    + intros H. inversion H as [[Hw Hs]].
      exfalso. exact (str_split_nonempty c s Hs).
    + destruct (str_split c s) as [| w' ws] eqn:Hs.
      * exfalso. exact (str_split_nonempty c s Hs).
      * intros H. inversion H. subst.
        destruct (IH w' eq_refl) as [-> Hc]. rewrite Hc. auto.
Qed.

Lemma last_item_cons {A} (a b : A) (l : list A) :
  last_item (a :: b :: l) = last_item (b :: l).
Proof. reflexivity. Qed.

Lemma str_split_whole (c : ascii) (s : string) :
  contains c s = false -> str_split c s = [s].
Proof.
  induction s as [| a s IH]; simpl; [reflexivity |].
  destruct (Ascii.eqb a c); simpl; [discriminate |].
  intros Hc. rewrite (IH Hc). reflexivity.
Qed.

(** The last field of a split has no separator; it is the whole text
    when the text has none, and otherwise what follows the last
    separator of the text. *)
Lemma split_last_segment (c : ascii) (s : string) :
  exists r,
    last_item (str_split c s) = inr r /\ contains c r = false /\
    (contains c s = false -> r = s) /\
    (contains c s = true -> exists p, s = p ++ String c r).
Proof.
  induction s as [| a s IH].
  - exists EmptyString. simpl. repeat split; auto. discriminate.
  - destruct IH as [r [Hl [Hc [Hwhole Hpart]]]]. simpl.
    destruct (Ascii.eqb a c) eqn:E.
    + apply Ascii.eqb_eq in E. subst a.
      destruct (str_split c s) as [| w ws] eqn:Hsp;
        [exfalso; exact (str_split_nonempty c s Hsp) |].
      rewrite last_item_cons. exists r. simpl.
      split; [exact Hl |]. split; [exact Hc |].
      split; [discriminate |]. intros _.
      destruct (contains c s) eqn:Hcs.
      * destruct (Hpart eq_refl) as [p Hp]. exists (String c p).
        rewrite Hp. reflexivity.
      * exists EmptyString. rewrite (Hwhole eq_refl). reflexivity.
    + destruct (contains c s) eqn:Hcs; simpl.
      * destruct (Hpart eq_refl) as [p Hp].
        destruct (str_split c s) as [| w ws] eqn:Hsp;
          [exfalso; exact (str_split_nonempty c s Hsp) |].
        destruct ws as [| w2 ws].
        { destruct (str_split_single c s w Hsp) as [_ Hno].
          rewrite Hno in Hcs. discriminate Hcs. }
        rewrite last_item_cons. rewrite last_item_cons in Hl.
        exists r. split; [exact Hl |]. split; [exact Hc |].
        split; [discriminate |]. intros _. exists (String a p).
        rewrite Hp. reflexivity.
      * rewrite (str_split_whole c s Hcs). exists (String a s). simpl.
        rewrite E, Hcs. repeat split; auto. discriminate.
Qed.

(** X11: The address that goes into the request.  The subscript never
    raises.  An address without a point or without a colon goes as it
    is; of an address with both, exactly the part behind the last colon
    goes: the address is some text, a colon and that part, which holds
    no colon. *)
Theorem geoip_address_spec (ip_str : string) :
  exists r,
    geoip_address ip_str = inr r /\
    (contains "."%char ip_str = false \/ contains ":"%char ip_str = false ->
     r = ip_str) /\
    (contains "."%char ip_str = true -> contains ":"%char ip_str = true ->
     contains ":"%char r = false /\
     exists p, ip_str = p ++ String ":"%char r).
Proof.
  unfold geoip_address.
  destruct (contains "."%char ip_str) eqn:Hp;
    destruct (contains ":"%char ip_str) eqn:Hc; simpl.
  - destruct (split_last_segment ":"%char ip_str) as [r [Hl [Hr [_ Hs]]]].
    exists r. split; [exact Hl |]. split.
    + intros [Hx | Hx]; discriminate Hx.
    + intros _ _. split; [exact Hr |]. apply Hs. exact Hc.
  - exists ip_str. repeat split; auto; discriminate.
  - exists ip_str. repeat split; auto; discriminate.
  - exists ip_str. repeat split; auto; discriminate.
Qed.


(* ------------------------------------------------------------------ *)
(** ** The time window and the start of [main]                           *)
(* ------------------------------------------------------------------ *)

Lemma parse_arguments_inr (given args : Namespace) :
  parse_arguments given = inr args ->
  args = given /\
  ((xorb (ns_today given) (ns_yesterday given) = true /\
    ns_start given = None /\ ns_end given = None)
   \/
   (ns_today given = false /\ ns_yesterday given = false /\
    exists s e, ns_start given = Some s /\ ns_end given = Some e)).
Proof.
  unfold parse_arguments.
  destruct (ns_today given), (ns_yesterday given),
           (ns_start given) as [s |], (ns_end given) as [e |]; simpl;
    intros Hp; try discriminate Hp; inversion Hp; subst;
    (split; [reflexivity |]);
    first [ left; repeat split; reflexivity
          | right; split; [reflexivity |]; split; [reflexivity |]; eauto ].
Qed.

(** X13: [parse_arguments] accepts the options exactly when they select the
    window in one way: one of [--today] and [--yesterday] and neither
    [--start] nor [--end], or none of the two and both [--start] and
    [--end]; it returns them unchanged. *)
Theorem parse_arguments_accepts (given args : Namespace) :
  parse_arguments given = inr args <->
  args = given /\
  ((xorb (ns_today given) (ns_yesterday given) = true /\
    ns_start given = None /\ ns_end given = None)
   \/
   (ns_today given = false /\ ns_yesterday given = false /\
    ns_start given <> None /\ ns_end given <> None)).
Proof.
  unfold parse_arguments. split.
  - destruct (ns_today given) eqn:Et, (ns_yesterday given) eqn:Ey,
             (ns_start given) as [s |] eqn:Es,
             (ns_end given) as [e |] eqn:Ee; simpl;
      intros Hp; try discriminate Hp; inversion Hp; subst;
      (split; [reflexivity |]); rewrite ?Et, ?Ey, ?Es, ?Ee;
      first [ left; repeat split; reflexivity
            | right; repeat split; (reflexivity || discriminate) ].
  - intros [-> [[Hx [Hs He]] | [Ht [Hy [Hs He]]]]].
    + rewrite Hs, He.
      destruct (ns_today given), (ns_yesterday given); simpl in *;
        try discriminate Hx; reflexivity.
    + rewrite Ht, Hy.
      destruct (ns_start given), (ns_end given); simpl;
        try reflexivity; congruence.
Qed.

Lemma day_before_error (d : datetime) (e : exn) :
  day_before d = inl e -> e = OverflowError.
Proof.
  unfold day_before.
  destruct (1 <? day d); [discriminate |].
  destruct (1 <? month d); [discriminate |].
  destruct (1 <? year d); [discriminate |].
  intros E. inversion E. reflexivity.
Qed.

Section StartupFacts.
Context {L : PyLib} {H : PyHost}.

Lemma explicit_resolution (args : Namespace) (s e : string) :
  ns_today args = false -> ns_yesterday args = false ->
  ns_start args = Some s -> ns_end args = Some e ->
  resolve_time_range args
  = match strptime_arg s with
    | None => inl (ValueError (no_match s))
    | Some start_dt =>
        match strptime_arg e with
        | None => inl (ValueError (no_match e))
        | Some end_dt => timestamps start_dt end_dt
        end
    end.
Proof.
  intros Ht Hy Hs He. unfold resolve_time_range, parse_datetime.
  rewrite Ht, Hy, Hs, He.
  destruct (strptime_arg s); [| reflexivity].
  destruct (strptime_arg e); reflexivity.
Qed.

(** X14: Accepted options never make [resolve_time_range] read a missing
    [--start] or [--end]: without [--today] and [--yesterday] both are
    there.  The first of the two that does not match the format gives
    the [ValueError] that names it; when both match, the two datetimes
    are converted, [--start] first, and the result is the two integer
    timestamps or the exception of the first conversion that raises. *)
Theorem accepted_arguments_resolve (given args : Namespace) :
  parse_arguments given = inr args ->
  ns_today args = false -> ns_yesterday args = false ->
  exists s e,
    ns_start args = Some s /\ ns_end args = Some e /\
    resolve_time_range args
    = match strptime_arg s with
      | None => inl (ValueError (no_match s))
      | Some start_dt =>
          match strptime_arg e with
          | None => inl (ValueError (no_match e))
          | Some end_dt =>
              match timestamp start_dt with
              | inl x => inl x
              | inr start_time =>
                  match timestamp end_dt with
                  | inl x => inl x
                  | inr end_time => inr (start_time, end_time)
                  end
              end
          end
      end.
Proof.
  intros Hp Ht Hy. apply parse_arguments_inr in Hp.
  destruct Hp as [-> [[Hx _] | [_ [_ [s [e [Hs He]]]]]]].
  - rewrite Ht, Hy in Hx. discriminate Hx.
  - exists s, e. split; [exact Hs |]. split; [exact He |].
    exact (explicit_resolution given s e Ht Hy Hs He).
Qed.

(** X15: A window that is not selected properly ends the program before the
    journal is opened, whatever the journal holds: options that
    [parse_arguments] refuses end in the usage error, a [--start] or
    [--end] that does not match the format ends in one [Error:] line on
    standard error and exit status 1. *)
Theorem bad_window_ends_before_the_journal (given : Namespace) :
  (forall e, parse_arguments given = inl e -> program given = ([], Usage e))
  /\
  (forall args s e,
      parse_arguments given = inr args ->
      ns_today args = false -> ns_yesterday args = false ->
      ns_start args = Some s -> ns_end args = Some e ->
      (strptime_arg s = None ->
       program given = ([Stderr ("Error: " ++ no_match s)], Exited 1)) /\
      (strptime_arg s <> None -> strptime_arg e = None ->
       program given = ([Stderr ("Error: " ++ no_match e)], Exited 1))).
Proof.
  split.
  - intros e He. unfold program. rewrite He. reflexivity.
  - intros args s e Hp Ht Hy Hs He.
    assert (Hres := explicit_resolution args s e Ht Hy Hs He).
    unfold program. rewrite Hp, Hres. split.
    + intros Hbad. rewrite Hbad. reflexivity.
    + intros Hgood Hbad. destruct (strptime_arg s); [| contradiction].
      rewrite Hbad. reflexivity.
Qed.

End StartupFacts.

(* ------------------------------------------------------------------ *)
(** ** More on the rendering and the report                              *)
(* ------------------------------------------------------------------ *)

(** X16: From a minute on, the numbers that [human_readable_seconds] prints
    are the hours, minutes and seconds of the input: they give it back,
    minutes and seconds are below 60, and the hours are printed exactly
    when there is one. *)
Theorem human_readable_units (s : Z) :
  60 <= s ->
  exists h m r,
    s = 3600 * h + 60 * m + r /\
    0 <= h /\ 0 <= m < 60 /\ 0 <= r < 60 /\ (h = 0 -> 1 <= m) /\
    human_readable_seconds s
    = if h =? 0 then
        str_int m ++ " minute(s), " ++ str_int r ++ " second(s)"
      else
        str_int h ++ " hour(s), " ++ str_int m ++ " minute(s), "
          ++ str_int r ++ " second(s)".
Proof.
  intros Hs. unfold human_readable_seconds.
  rewrite (proj2 (Z.ltb_ge s 60) Hs).
  destruct (s <? 3600) eqn:E.
  - apply Z.ltb_lt in E. exists 0, (s / 60), (s mod 60).
    assert (H1 := Z.div_mod s 60 ltac:(lia)).
    assert (H2 := Z.mod_pos_bound s 60 ltac:(lia)).
    assert (H3 : 1 <= s / 60) by (apply Z.div_le_lower_bound; lia).
    assert (H4 : s / 60 < 60) by (apply Z.div_lt_upper_bound; lia).
    simpl (0 =? 0). repeat split; lia.
  - apply Z.ltb_ge in E.
    exists (s / 3600), (s mod 3600 / 60), (s mod 3600 mod 60).
    assert (H1 := Z.div_mod s 3600 ltac:(lia)).
    assert (H2 := Z.mod_pos_bound s 3600 ltac:(lia)).
    assert (H3 := Z.div_mod (s mod 3600) 60 ltac:(lia)).
    assert (H4 := Z.mod_pos_bound (s mod 3600) 60 ltac:(lia)).
    assert (H5 : 1 <= s / 3600) by (apply Z.div_le_lower_bound; lia).
    assert (H6 : 0 <= s mod 3600 / 60) by (apply Z.div_pos; lia).
    assert (H7 : s mod 3600 / 60 < 60) by (apply Z.div_lt_upper_bound; lia).
    assert (E0 : (s / 3600 =? 0) = false) by (apply Z.eqb_neq; lia).
    rewrite E0. repeat split; lia.
Qed.

Section ReportFacts.
Context {L : PyLib}.

Lemma int_of_float_outcome (x : float) :
  (exists z, int_of_float x = inr z) \/
  (exists e, int_of_float x = inl e /\ not_finite e).
Proof.
  unfold int_of_float, not_finite. destruct (Prim2SF x) as [s | s | | s m e].
  - left. eauto.
  - right. eauto.
  - right. eauto.
  - left. destruct (float_ratio s m e). eauto.
Qed.

Lemma for_each_outcome {A} (body : A -> M unit) (l : list A) :
  (forall a, In a l ->
             outcome (body a) = inr tt \/
             exists e, outcome (body a) = inl e /\ not_finite e) ->
  outcome (for_each l body) = inr tt \/
  exists e, outcome (for_each l body) = inl e /\ not_finite e.
Proof.
  induction l as [| a l IH]; intros Hall; simpl; [left; reflexivity |].
  destruct (Hall a (or_introl eq_refl)) as [Ha | [e [Ha He]]];
    unfold outcome in *; destruct (body a) as [o [e' | []]]; simpl in *;
    try discriminate.
  - destruct IH as [IH | [e [IH He]]];
      [intros b Hb; apply Hall; right; exact Hb | |];
      destruct (for_each l body) as [o' r]; simpl in *.
    + left. exact IH.
    + right. eauto.
  - right. exists e. split; [exact Ha | exact He].
Qed.

Lemma report_group_outcome (st : State) (args : Args)
      (grouped : list (IPAddress * list Connection))
      (conns : list Connection) :
  Inv st -> closed_timed st -> geo_ip args = false ->
  group_connections (closed_connections st) = inr grouped ->
  In conns (ordered_groups grouped) ->
  outcome (report_group args conns) = inr tt \/
  exists e, outcome (report_group args conns) = inl e /\ not_finite e.
Proof.
  intros HI Ht Hgeo Hgr Hin.
  destruct (ordered_group_members _ _ _ Hgr Hin) as [a [_ [Hf Hne]]].
  assert (Hsub : forall m, In m conns -> In m (closed_connections st))
    by (intros m Hm; rewrite Hf in Hm; apply filter_In in Hm; tauto).
  destruct (timed_durations st conns Ht Hsub) as [ds Hds].
  destruct (sum_durations_additive conns ds Hne Hds)
    as [total [_ [Hsum _]]].
  destruct conns as [| c0 rest]; [contradiction |].
  assert (Hip : exists a0, get_ip c0 = inr a0).
  { assert (Hc := closed_ok_nonempty c0
                    (inv_closed st HI c0 (Hsub c0 (or_introl eq_refl)))).
    unfold get_ip, getitem. destruct (events c0); [contradiction |].
    simpl. eauto. }
  destruct Hip as [a0 Hip].
  unfold report_group. cbn [getitem nth_error].
  rewrite bind_lift_inr, Hip, bind_lift_inr, Hsum, bind_lift_inr, Hgeo.
  rewrite bind_ret_l. cbn [py_int_of_num].
  destruct (int_of_float_outcome total)
    as [[z Hz] | [e [Hz He]]]; rewrite Hz.
  - left. rewrite bind_lift_inr. reflexivity.
  - right. exists e. split; [reflexivity | exact He].
Qed.

(** X18: The report after a loop that ends, without geolocation.  It always
    prints the line with the number of closed connections, and it ends
    well, or in the refusal of [int] to convert a total that is an
    infinity or not a number: no subscript, no addition and no lookup
    of the report can fail. *)
Theorem report_fails_only_on_nonfinite_total (msgs : list string)
        (o : list Out) (st : State) (args : Args) :
  main_loop init msgs = (o, inr st) ->
  geo_ip args = false ->
  In (Stdout ("Closed connections: "
                ++ str_int (Z.of_nat (List.length (closed_connections st)))))
     (output (report args st)) /\
  (outcome (report args st) = inr tt \/
   exists e, outcome (report args st) = inl e /\ not_finite e).
Proof.
  intros Hrun Hgeo.
  destruct (main_loop_inv msgs init st o Inv_init closed_timed_init Hrun)
    as [HI Ht].
  destruct (grouping_succeeds st HI) as [grouped Hgr].
  assert (Hgroups := for_each_outcome (report_group args)
                       (ordered_groups grouped)
                       (fun conns Hc =>
                          report_group_outcome st args grouped conns
                            HI Ht Hgeo Hgr Hc)).
  assert (Hopen : exists oo, report_open (open_connections st) = (oo, inr tt)).
  { destruct (open_connections st) as [| kc opened].
    - exists []. reflexivity.
    - rewrite report_open_cons. eauto. }
  destruct Hopen as [oo Hopen].
  destruct (for_each (ordered_groups grouped) (report_group args))
    as [og r] eqn:Hfe.
  assert (Hrep : report args st
                 = ((oo ++ Stdout EmptyString
                        :: Stdout ("Closed connections: "
                                     ++ str_int (Z.of_nat (List.length
                                                   (closed_connections st))))
                        :: og)%list, r)).
  { unfold report. rewrite Hopen, Hgr. unfold bind at 1.
    unfold print. unfold bind at 1. unfold bind at 1.
    rewrite bind_lift_inr, Hfe. reflexivity. }
  rewrite Hrep. unfold outcome, output in *. cbn [fst snd] in *. split.
  - apply in_or_app. right. right. left. reflexivity.
  - exact Hgroups.
Qed.

End ReportFacts.

(* ------------------------------------------------------------------ *)
(** ** Distinct durations are rendered distinctly                        *)
(* ------------------------------------------------------------------ *)

Lemma to_int_not_nil (z : Z) :
  Z.to_int z <> Decimal.Pos Decimal.Nil /\
  Z.to_int z <> Decimal.Neg Decimal.Nil.
Proof.
  destruct z as [| p | p]; simpl; split; try discriminate;
    intros E; inversion E as [E'];
    exact (DecimalPos.Unsigned.to_uint_nonnil p E').
Qed.

Lemma str_int_inj (a b : Z) : str_int a = str_int b -> a = b.
Proof.
  unfold str_int. intros E.
  destruct (to_int_not_nil a) as [Ha1 Ha2].
  destruct (to_int_not_nil b) as [Hb1 Hb2].
  assert (E' : NilZero.int_of_string (NilZero.string_of_int (Z.to_int a))
               = NilZero.int_of_string (NilZero.string_of_int (Z.to_int b)))
    by (rewrite E; reflexivity).
  rewrite !NilZero.isi in E' by assumption.
  inversion E' as [E'']. apply DecimalZ.to_int_inj. exact E''.
Qed.

Lemma uint_no_space (d : Decimal.uint) :
  contains space (NilEmpty.string_of_uint d) = false.
Proof. induction d; simpl; auto. Qed.

Lemma str_int_no_space (z : Z) : contains space (str_int z) = false.
Proof.
  unfold str_int. destruct (Z.to_int z) as [d | d]; simpl;
    destruct d; simpl; auto using uint_no_space.
Qed.

Lemma split_at_first (c : ascii) (a b u v : string) :
  contains c a = false -> contains c b = false ->
  a ++ String c u = b ++ String c v -> a = b /\ u = v.
Proof.
  revert b. induction a as [| x a IH]; intros [| y b] Ha Hb E; simpl in *.
  - inversion E. auto.
  - inversion E. subst y. rewrite Ascii.eqb_refl in Hb. discriminate.
  - inversion E. subst x. rewrite Ascii.eqb_refl in Ha. discriminate.
  - inversion E. subst y.
    apply orb_false_iff in Ha. apply orb_false_iff in Hb.
    destruct (IH b (proj2 Ha) (proj2 Hb) H1) as [-> ->]. auto.
Qed.

Lemma numbers_split (x y : Z) (u v : string) :
  str_int x ++ String space u = str_int y ++ String space v ->
  x = y /\ u = v.
Proof.
  intros E.
  destruct (split_at_first space _ _ _ _ (str_int_no_space x)
              (str_int_no_space y) E) as [Hxy Huv].
  split; [apply str_int_inj; exact Hxy | exact Huv].
Qed.

(** X17: [human_readable_seconds] is injective: two durations that are
    rendered alike are equal. *)
Theorem human_readable_seconds_injective (s1 s2 : Z) :
  human_readable_seconds s1 = human_readable_seconds s2 -> s1 = s2.
Proof.
  unfold human_readable_seconds.
  destruct (s1 <? 60) eqn:A1; [| destruct (s1 <? 3600) eqn:B1];
    (destruct (s2 <? 60) eqn:A2; [| destruct (s2 <? 3600) eqn:B2]);
    intros E;
    change " second(s)" with (String space "second(s)") in E;
    change " minute(s), " with (String space "minute(s), ") in E;
    change " hour(s), " with (String space "hour(s), ") in E;
    apply numbers_split in E; destruct E as [E1 E2];
    try discriminate E2.
  - exact E1.
  - simpl in E2. injection E2 as E2.
    change " second(s)" with (String space "second(s)") in E2.
    apply numbers_split in E2. destruct E2 as [E2 _].
    rewrite (Z.div_mod s1 60), (Z.div_mod s2 60) by lia. congruence.
  - simpl in E2. injection E2 as E2.
    change " minute(s), " with (String space "minute(s), ") in E2.
    apply numbers_split in E2. destruct E2 as [E2 E3].
    simpl in E3. injection E3 as E3.
    change " second(s)" with (String space "second(s)") in E3.
    apply numbers_split in E3. destruct E3 as [E3 _].
    rewrite (Z.div_mod s1 3600), (Z.div_mod s2 3600) by lia.
    rewrite (Z.div_mod (s1 mod 3600) 60), (Z.div_mod (s2 mod 3600) 60) by lia.
    congruence.
Qed.

(* ------------------------------------------------------------------ *)
(** ** The further theorems at the scenarios                             *)
(* ------------------------------------------------------------------ *)

(** The whole program on the reference host: the first entry of the
    journal is dropped, the entry without a message is skipped, the
    entry behind the window ends the reading. *)
Lemma scenario_program :
  @program Ref.lib RefHost.host RefHost.explicit_window
  = ([Stdout EmptyString; Stdout "Closed connections: 1";
      Stdout "1.2.3.4: 1 connections, spent 5 second(s)"], Returned).
Proof. reflexivity. Qed.

Lemma scenario_bad_start :
  @program Ref.lib RefHost.host RefHost.bad_start
  = ([Stderr
        "Error: Datetime 'yesterday' does not match format %Y-%m-%dT%H:%M:%S"],
     Exited 1).
Proof. reflexivity. Qed.

Lemma scenario_today_and_start :
  @program Ref.lib RefHost.host RefHost.today_and_start
  = ([], Usage (UsageMessage
                  "When using --today or --yesterday, you cannot specify --start or --end")).
Proof. reflexivity. Qed.

Lemma scenario_mapped_address :
  geoip_address "::ffff:1.2.3.4" = inr "1.2.3.4".
Proof. reflexivity. Qed.

(** The first day of year 1 as [--start]: the conversion raises, and
    [main] reports it like a text that does not match. *)
Lemma scenario_first_day :
  @program Ref.lib RefHost.host RefHost.first_day
  = ([Stderr "Error: year 0 is out of range"], Exited 1).
Proof. reflexivity. Qed.

(** A line of an unknown keyword, a [CLOSE] of the second source, then
    the [ACCEPT] of the first scenario: the run ends at the [CLOSE]
    with the diagnostic of the first line as its whole output. *)
Lemma unmatched_accept_unreported_witness :
  @main Ref.lib (mkArgs false)
     [RefHost.unknown_line; Scenario.close_line_2; Ref.accept_line]
  = ([Stdout "Unmatched connection type RESET"], inl KeyError) /\
  ~ In (Stdout "Currently open connections:")
       [Stdout "Unmatched connection type RESET"] /\
  ~ In (Stdout (open_line (@conn Ref.lib Scenario.accept_event)))
       [Stdout "Unmatched connection type RESET"].
Proof.
  apply (@unmatched_accept_unreported_after_unmatched_close Ref.lib
           (mkArgs false) [RefHost.unknown_line] []
           Scenario.close_line_2 Ref.accept_line
           Scenario.close_event_2 Scenario.accept_event
           [Stdout "Unmatched connection type RESET"] init);
    reflexivity.
Defined.


Lemma loop_state_shape_witness :
  NoDup (dict_keys (open_connections Scenario.one_closed)) /\
  (forall k c, In (k, c) (open_connections Scenario.one_closed) ->
               events c <> [] /\
               Forall (fun e => conn e = k /\ type e = ACCEPT) (events c)) /\
  (forall c, In c (closed_connections Scenario.one_closed) ->
             exists es e x,
               events c = (es ++ [e])%list /\ es <> [] /\
               type e = CLOSE /\ duration e = Some x /\
               Forall (fun e' => conn e' = conn e /\ type e' = ACCEPT) es).
Proof.
  apply (@loop_state_shape Ref.lib [Ref.accept_line; Ref.close_line] []
           Scenario.one_closed).
  reflexivity.
Defined.


Lemma group_counts_witness :
  members_total (ordered_groups Scenario.two_groups)
  = List.length Scenario.two_sources /\
  List.length (ordered_groups Scenario.two_groups)
  = List.length (encounter [Scenario.ip_1_2_3_4; Scenario.ip_5_6_7_8]).
Proof.
  apply (@group_counts_add_up Ref.lib Scenario.two_sources
           [Scenario.ip_1_2_3_4; Scenario.ip_5_6_7_8] Scenario.two_groups).
  - repeat constructor.
  - reflexivity.
Defined.

Lemma five_fields_witness :
  @from_journal Ref.lib Ref.accept_line
  = @from_journal Ref.lib RefHost.wide_accept_line.
Proof.
  apply (@from_journal_reads_five_fields Ref.lib Ref.accept_line
           RefHost.wide_accept_line);
    try reflexivity; try (vm_compute; lia).
  intros E. discriminate E.
Defined.

Lemma unknown_keyword_witness :
  [Stdout "Unmatched connection type RESET"]
  = flat_map (@loop_output Ref.lib) [RefHost.unknown_line; "a b c"] /\
  forall line,
    ~ In (Stderr line) [Stdout "Unmatched connection type RESET"].
Proof.
  apply (@main_loop_prints_unknown_keywords Ref.lib
           [RefHost.unknown_line; "a b c"] init
           [Stdout "Unmatched connection type RESET"]).
  reflexivity.
Defined.

Lemma accepted_arguments_witness :
  parse_arguments RefHost.first_day = inr RefHost.first_day /\
  exists s e,
    ns_start RefHost.first_day = Some s /\
    ns_end RefHost.first_day = Some e /\
    @resolve_time_range RefHost.host RefHost.first_day
    = match @strptime_arg RefHost.host s with
      | None => inl (ValueError (no_match s))
      | Some start_dt =>
          match @strptime_arg RefHost.host e with
          | None => inl (ValueError (no_match e))
          | Some end_dt =>
              match @timestamp RefHost.host start_dt with
              | inl x => inl x
              | inr start_time =>
                  match @timestamp RefHost.host end_dt with
                  | inl x => inl x
                  | inr end_time => inr (start_time, end_time)
                  end
              end
          end
      end.
Proof.
  split; [reflexivity |].
  apply (@accepted_arguments_resolve RefHost.host RefHost.first_day
           RefHost.first_day); reflexivity.
Defined.

Lemma human_readable_units_witness :
  exists h m r,
    3725 = 3600 * h + 60 * m + r /\
    0 <= h /\ 0 <= m < 60 /\ 0 <= r < 60 /\ (h = 0 -> 1 <= m) /\
    human_readable_seconds 3725
    = if h =? 0 then
        str_int m ++ " minute(s), " ++ str_int r ++ " second(s)"
      else
        str_int h ++ " hour(s), " ++ str_int m ++ " minute(s), "
          ++ str_int r ++ " second(s)".
Proof. apply (human_readable_units 3725). lia. Defined.

Lemma report_outcome_witness :
  In (Stdout ("Closed connections: "
                ++ str_int (Z.of_nat (List.length
                              (closed_connections Scenario.one_closed)))))
     (output (report (mkArgs false) Scenario.one_closed)) /\
  (outcome (report (mkArgs false) Scenario.one_closed) = inr tt \/
   exists e, outcome (report (mkArgs false) Scenario.one_closed) = inl e /\
             not_finite e).
Proof.
  apply (@report_fails_only_on_nonfinite_total Ref.lib
           [Ref.accept_line; Ref.close_line] [] Scenario.one_closed
           (mkArgs false)); reflexivity.
Defined.

Lemma rendering_injective_witness : 3725 = 3725.
Proof.
  apply (human_readable_seconds_injective 3725 3725). reflexivity.
Defined.
